(** * WebOptEnv MCP server: the session / server lifecycle manager

    A shallow embedding of [web_opt/lighthouse/src/index.ts]
    (class [WebOptEnvServer]) and the properties of its tool handlers.

    The handlers are [async] methods; every [await] is run to completion
    before the next statement, and one tool call is run to completion
    before the next one starts (calls are taken one at a time, as the
    specification's serialization guarantee has it).  The embedding is a
    state-and-exception monad over

    - the object's private fields ([expressApp], [expressServer],
      [currentPort], [currentHtmlFile]), and
    - the world outside the object: the file system, the listeners bound
      by this process, the ports held by other processes, the living
      browser processes, the clock, and the history of side effects.

    What the outside does and the code cannot decide (the result of a
    shell command, of the audit engine, of the browser) is an oracle of
    the environment record [Env]; the theorems hold for every such
    environment. *)

From Stdlib Require Import ZArith String Ascii List Lia DecimalString SpecFloat.
From stdpp Require Import base gmap strings list fin_maps.

#[local] Set Warnings "-register-all".

Local Open Scope string_scope.
Local Open Scope list_scope.
Local Open Scope Z_scope.

(* ===================================================================== *)
(** ** Paths ([path.join] on POSIX)                                        *)
(* ===================================================================== *)

(** An absolute, normalized path is the list of its segments; [[]] is the
    root.  [path.join(base, rel)] concatenates with a slash and normalizes:
    empty and ["."] segments vanish, [".."] removes the last segment and
    is dropped at the root.  (A trailing slash of [rel], which Node keeps,
    is not represented.) *)

Fixpoint split_slash (s : string) : list string :=
  match s with
  | EmptyString => [EmptyString]
  | String c r =>
      if Ascii.eqb c "/"%char then EmptyString :: split_slash r
      else match split_slash r with
           | seg :: segs => String c seg :: segs
           | [] => [String c EmptyString]
           end
  end.

Definition push_segment (acc : list string) (seg : string) : list string :=
  if String.eqb seg "" then acc
  else if String.eqb seg "." then acc
  else if String.eqb seg ".." then removelast acc
  else acc ++ [seg].

Definition path_join (base : list string) (rel : string) : list string :=
  fold_left push_segment (split_slash rel) base.

Definition path_to_string (p : list string) : string :=
  "/" +:+ String.concat "/" p.

(** [p] lies in the directory [dir] (or is [dir] itself). *)
Definition within (dir p : list string) : Prop := dir `prefix_of` p.

(** Template literals print a number in decimal. *)
Definition string_of_Z (z : Z) : string := NilZero.string_of_int (Z.to_int z).

(* ===================================================================== *)
(** ** The file system                                                     *)
(* ===================================================================== *)

Inductive Node :=
| File (content : string)
| Dir.

Definition is_dir (fs : gmap (list string) Node) (p : list string) : bool :=
  match p with
  | [] => true
  | _ => match fs !! p with Some Dir => true | _ => false end
  end.

Definition is_file (fs : gmap (list string) Node) (p : list string) : bool :=
  match fs !! p with Some (File _) => true | _ => false end.

Definition fs_exists (fs : gmap (list string) Node) (p : list string) : bool :=
  match p with
  | [] => true
  | _ => match fs !! p with Some _ => true | None => false end
  end.

(** [fs.mkdir(p, {recursive: true})]: every missing ancestor is created;
    it fails when a segment of the way is a file. *)
Fixpoint mkdir_from (fs : gmap (list string) Node) (done todo : list string)
  : option (gmap (list string) Node) :=
  match todo with
  | [] => Some fs
  | seg :: rest =>
      let d := done ++ [seg] in
      match fs !! d with
      | Some (File _) => None
      | _ => mkdir_from (<[d := Dir]> fs) d rest
      end
  end.

Definition fs_mkdir_recursive (fs : gmap (list string) Node) (p : list string)
  : option (gmap (list string) Node) :=
  mkdir_from fs [] p.

(** [fs.writeFile(p, content)]: the parent must be a directory and [p]
    must not be one. *)
Definition fs_writeFile (fs : gmap (list string) Node) (p : list string)
  (content : string) : option (gmap (list string) Node) :=
  match p with
  | [] => None
  | _ => if is_dir fs (removelast p) && negb (is_dir fs p)
         then Some (<[p := File content]> fs)
         else None
  end.

(** [fs.unlink(p)]: removes a file, fails on anything else. *)
Definition fs_unlink (fs : gmap (list string) Node) (p : list string)
  : option (gmap (list string) Node) :=
  if is_file fs p then Some (delete p fs) else None.

(* ===================================================================== *)
(** ** JavaScript numbers (IEEE 754 binary64)                              *)
(* ===================================================================== *)

(** Scores are doubles; they are embedded as the Standard Library's
    executable specification of binary floating point, at the binary64
    format. *)

Definition prec64 : Z := 53.
Definition emax64 : Z := 1024.

Definition number_mul (x y : spec_float) : spec_float := SFmul prec64 emax64 x y.

(** The double of an integer of magnitude below 2^53 (exactly
    representable). *)
Definition number_of_Z (k : Z) : spec_float :=
  binary_normalize prec64 emax64 k 0 false.

(** A number in a condition: [0], [-0] and [NaN] are falsy. *)
Definition number_truthy (x : spec_float) : bool :=
  match x with
  | S754_zero _ | S754_nan => false
  | _ => true
  end.

(** [Math.round(x)]: the integer nearest to [x], the larger one at a tie,
    that is [floor(x + 1/2)] computed exactly.  A double with a
    non-negative exponent is an integer already; the sign of [x] is kept on
    a zero result; [NaN] and the infinities are returned as they are. *)
Definition Math_round (x : spec_float) : spec_float :=
  match x with
  | S754_finite s m e =>
      if 0 <=? e then x
      else
        let n := if s then Z.neg m else Z.pos m in
        let k := Z.div (2 * n + Z.pow 2 (- e)) (Z.pow 2 (1 - e)) in
        binary_normalize prec64 emax64 k 0 s
  | _ => x
  end.

(* ===================================================================== *)
(** ** Side effects, the world and the object                              *)
(* ===================================================================== *)

(** A listener of this process: the [http.Server] object, its port and
    the directory [express.static] serves. *)
Record Listener := {
  l_handle : nat;
  l_port : Z;
  l_root : list string;
}.

(** The side effects the handlers have on the outside, in the order they
    happen.  [EvListen] is the call of [listen] that creates the server
    object [h]; [EvListening] is its listening callback (the server is
    bound from then on) and [EvListenError] its error event; [EvClose] is an
    awaited [close]. *)
Inductive Event :=
| EvMkdir (p : list string)
| EvWriteFile (p : list string) (content : string)
| EvUnlink (p : list string)
| EvExec (cmd : string) (cwd : option (list string))
| EvListen (h : nat) (port : Z) (root : list string)
| EvListening (h : nat) (port : Z) (root : list string)
| EvListenError (h : nat) (port : Z)
| EvClose (h : nat)
| EvChromeLaunch (pid : nat)
| EvChromeKill (pid : nat)
| EvLighthouse (url : string) (categories : list string)
| EvConnect (pid : nat)
| EvDisconnect (pid : nat)
| EvScreenshot (url : string) (width height : Z).

(** The listeners bound after a history: [EvListening] binds one,
    [EvClose] (awaited) unbinds the server it names. *)
Definition apply_event (ls : list Listener) (e : Event) : list Listener :=
  match e with
  | EvListening h p r => ls ++ [{| l_handle := h; l_port := p; l_root := r |}]
  | EvClose h => List.filter (fun l => negb (Nat.eqb (l_handle l) h)) ls
  | _ => ls
  end.

Definition listeners (t : list Event) : list Listener :=
  fold_left apply_event t [].

(** The world outside the object: the disk, the ports other processes
    hold, the living browser processes this process launched, the next
    unused identity (of a server object or a process), the clock
    ([Date.now()]) and the history of side effects so far. *)
Record World := {
  files : gmap (list string) Node;
  foreign_ports : list Z;
  browsers : list nat;
  fresh : nat;
  now : Z;
  trace : list Event;
}.

(** The listeners of this process that are bound now. *)
Definition bound (w : World) : list Listener := listeners (trace w).

(** The private fields of [WebOptEnvServer].  The Express application is
    known by the directory it serves. *)
Record State := {
  expressApp : option (list string);
  expressServer : option nat;
  currentPort : Z;
  currentHtmlFile : option (list string);
}.

Definition DEFAULT_PORT : Z := 8080.

Definition initial_state : State :=
  {| expressApp := None; expressServer := None;
     currentPort := DEFAULT_PORT; currentHtmlFile := None |}.

(** Idle: no server handle and no served content recorded. *)
Definition Idle (s : State) : Prop :=
  expressServer s = None ∧ currentHtmlFile s = None.

(** A thrown value: [error.message] and, for a failed shell command,
    [error.stderr]. *)
Record Err := {
  message : string;
  stderr : string;
}.

Definition Error (msg : string) : Err := {| message := msg; stderr := "" |}.

(** An awaited computation returns or throws. *)
Inductive Outcome (A : Type) :=
| Ret (a : A)
| Throw (e : Err).
Arguments Ret {A} a.
Arguments Throw {A} e.

(** The object and the world it runs in. *)
Record Sys := {
  this : State;
  world : World;
}.

(** A method body: it reads and changes the object and the world, and
    returns or throws. *)
Definition M (A : Type) : Type := Sys → Outcome A * Sys.

Definition ret {A} (a : A) : M A := fun s => (Ret a, s).

Definition throw {A} (e : Err) : M A := fun s => (Throw e, s).

Definition bind {A B} (m : M A) (k : A → M B) : M B :=
  fun s => match m s with
           | (Ret a, s') => k a s'
           | (Throw e, s') => (Throw e, s')
           end.

(** [try { m } catch (e) { h e }] *)
Definition try_catch {A} (m : M A) (h : Err → M A) : M A :=
  fun s => match m s with
           | (Ret a, s') => (Ret a, s')
           | (Throw e, s') => h e s'
           end.

(** [try { m } finally { f }]: [f] runs on both exits; its own throw
    replaces the outcome of [m]. *)
Definition try_finally {A} (m : M A) (f : M unit) : M A :=
  fun s => match m s with
           | (r, s') => match f s' with
                        | (Ret _, s'') => (r, s'')
                        | (Throw e, s'') => (Throw e, s'')
                        end
           end.

Notation "x <- m ;; k" := (bind m (fun x => k))
  (at level 100, m at next level, right associativity).
Notation "m ;; k" := (bind m (fun _ => k))
  (at level 100, right associativity).

Definition get_this : M State := fun s => (Ret (this s), s).
Definition get_world : M World := fun s => (Ret (world s), s).
Definition put_this (t : State) : M unit :=
  fun s => (Ret tt, {| this := t; world := world s |}).
Definition put_world (w : World) : M unit :=
  fun s => (Ret tt, {| this := this s; world := w |}).

Definition set_expressApp (a : option (list string)) : M unit :=
  t <- get_this ;;
  put_this {| expressApp := a; expressServer := expressServer t;
              currentPort := currentPort t; currentHtmlFile := currentHtmlFile t |}.

Definition set_expressServer (h : option nat) : M unit :=
  t <- get_this ;;
  put_this {| expressApp := expressApp t; expressServer := h;
              currentPort := currentPort t; currentHtmlFile := currentHtmlFile t |}.

Definition set_currentPort (p : Z) : M unit :=
  t <- get_this ;;
  put_this {| expressApp := expressApp t; expressServer := expressServer t;
              currentPort := p; currentHtmlFile := currentHtmlFile t |}.

Definition set_currentHtmlFile (f : option (list string)) : M unit :=
  t <- get_this ;;
  put_this {| expressApp := expressApp t; expressServer := expressServer t;
              currentPort := currentPort t; currentHtmlFile := f |}.

Definition with_files (w : World) (fs : gmap (list string) Node) : World :=
  {| files := fs; foreign_ports := foreign_ports w; browsers := browsers w;
     fresh := fresh w; now := now w; trace := trace w |}.

Definition with_browsers (w : World) (b : list nat) : World :=
  {| files := files w; foreign_ports := foreign_ports w; browsers := b;
     fresh := fresh w; now := now w; trace := trace w |}.

Definition with_fresh (w : World) (n : nat) : World :=
  {| files := files w; foreign_ports := foreign_ports w; browsers := browsers w;
     fresh := n; now := now w; trace := trace w |}.

Definition log_event (w : World) (e : Event) : World :=
  {| files := files w; foreign_ports := foreign_ports w; browsers := browsers w;
     fresh := fresh w; now := now w; trace := trace w ++ [e] |}.

Definition emit (e : Event) : M unit :=
  w <- get_world ;; put_world (log_event w e).

(* ===================================================================== *)
(** ** Tool arguments, replies and the audit engine's report               *)
(* ===================================================================== *)

(** The object handed to [JSON.stringify] for [content[0].text]. *)
Inductive JSON :=
| JNull
| JBool (b : bool)
| JInt (z : Z)
| JNum (x : spec_float)
| JStr (s : string)
| JArr (items : list JSON)
| JObj (fields : list (string * JSON)).

Fixpoint assoc {A} (k : string) (l : list (string * A)) : option A :=
  match l with
  | [] => None
  | (k', v) :: r => if String.eqb k k' then Some v else assoc k r
  end.

Definition field (k : string) (j : JSON) : option JSON :=
  match j with
  | JObj fs => assoc k fs
  | _ => None
  end.

Record Reply := {
  content : JSON;
  isError : bool;
}.

Definition success (r : Reply) : bool :=
  match field "success" (content r) with
  | Some (JBool true) => true
  | _ => false
  end.

(** [x || d] on an optional number and on an optional string. *)
Definition number_or (x : option Z) (d : Z) : Z :=
  match x with
  | Some v => if v =? 0 then d else v
  | None => d
  end.

Definition string_or (x : option string) (d : string) : string :=
  match x with
  | Some v => if String.eqb v "" then d else v
  | None => d
  end.

Module DeployZip.
Record args := { zip_content : string; port : option Z }.
End DeployZip.

Module ServeHtml.
Record args := { html_content : string; filename : option string; port : option Z }.
End ServeHtml.

Module Audit.
Record args := { url : option string; categories : option (list string) }.
End Audit.

Module Screenshot.
Record args := { url : string; width : option Z; height : option Z }.
End Screenshot.

(** The part of the Lighthouse result ([runnerResult.lhr]) the handler
    reads. *)
Module LH.
Record category := { score : option spec_float; title : string }.
Record audit := {
  a_title : string;
  a_description : string;
  a_displayValue : option string;
  a_score : option spec_float;
  a_details_type : option string;
  a_scoreDisplayMode : string;
}.
Record lhr := {
  fetchTime : string;
  categories : list (string * category);
  audits : list (string * audit);
}.
End LH.

Inductive ExecResult :=
| ExecOk (fs : gmap (list string) Node)
| ExecFail (fs : gmap (list string) Node) (msg err : string).

Inductive LHOutcome :=
| LHThrows (e : Err)
| LHNoResult
| LHResult (r : LH.lhr).

Inductive CaptureOutcome :=
| ConnectFails (e : Err)
| PageFails (e : Err)
| Captured (png : string) (scrollWidth scrollHeight : Z).

(** What the outside answers. *)
Record Env := {
  exec : string → option (list string) → gmap (list string) Node → ExecResult;
  chrome_starts : nat → bool;
  lighthouse : string → list string → LHOutcome;
  capture : string → Z → Z → CaptureOutcome;
}.

(** The ports [listen] accepts; outside them it throws at once. *)
Definition valid_port (p : Z) : bool := (0 <=? p) && (p <? 65536).

(** A bind on [p] fails (EADDRINUSE) when another process or a listener of
    this process holds the port. *)
Definition port_taken (w : World) (p : Z) : bool :=
  existsb (Z.eqb p) (foreign_ports w)
  || existsb (fun l => Z.eqb p (l_port l)) (bound w).

(** A score of the report, [number | null]. *)
Definition opt_num (o : option spec_float) : JSON :=
  match o with Some x => JNum x | None => JNull end.

(** The literals [1] and [100]. *)
Definition number_one : spec_float := number_of_Z 1.
Definition number_100 : spec_float := number_of_Z 100.

(* ===================================================================== *)
(** ** The server object                                                   *)
(* ===================================================================== *)

Section WebOptEnvServer.

Variable env : Env.

(** The directory of the running script ([dist/]). *)
Variable __dirname : list string.

Definition TEMP_DIR : list string := path_join __dirname "../temp".

(** *** The outside calls *)

Definition mkdir_recursive (p : list string) : M unit :=
  emit (EvMkdir p) ;;
  w <- get_world ;;
  match fs_mkdir_recursive (files w) p with
  | Some fs => put_world (with_files w fs)
  | None =>
      throw (Error ("ENOTDIR: not a directory, mkdir '" +:+ path_to_string p +:+ "'"))
  end.

Definition writeFile (p : list string) (data : string) : M unit :=
  emit (EvWriteFile p data) ;;
  w <- get_world ;;
  match fs_writeFile (files w) p data with
  | Some fs => put_world (with_files w fs)
  | None =>
      throw (Error ("ENOENT: no such file or directory, open '" +:+ path_to_string p +:+ "'"))
  end.

Definition unlink (p : list string) : M unit :=
  emit (EvUnlink p) ;;
  w <- get_world ;;
  match fs_unlink (files w) p with
  | Some fs => put_world (with_files w fs)
  | None =>
      throw (Error ("ENOENT: no such file or directory, unlink '" +:+ path_to_string p +:+ "'"))
  end.

Definition access (p : list string) : M unit :=
  w <- get_world ;;
  if fs_exists (files w) p then ret tt
  else throw (Error ("ENOENT: no such file or directory, access '" +:+ path_to_string p +:+ "'")).

(** [fs.readdir(p)]: the names in the directory [p]. *)
Definition readdir (p : list string) : M (list string) :=
  w <- get_world ;;
  if is_dir (files w) p
  then ret (omap (fun kv : list string * Node =>
                    if decide (removelast (fst kv) = p) then last (fst kv) else None)
                 (map_to_list (files w)))
  else throw (Error ("ENOTDIR: not a directory, scandir '" +:+ path_to_string p +:+ "'")).

(** [execAsync(cmd, {cwd})]: a non-zero exit rejects with an error that
    carries [stderr]. *)
Definition execAsync (cmd : string) (cwd : option (list string)) : M unit :=
  emit (EvExec cmd cwd) ;;
  w <- get_world ;;
  match exec env cmd cwd (files w) with
  | ExecOk fs => put_world (with_files w fs)
  | ExecFail fs msg err =>
      put_world (with_files w fs) ;;
      throw {| message := msg; stderr := err |}
  end.

Definition Date_now : M Z := w <- get_world ;; ret (now w).

(** [server.close(cb)], awaited: the callback runs once the listener is
    unbound (and at once, with an error it ignores, when the server was
    not listening). *)
Definition server_close (h : nat) : M unit := emit (EvClose h).

(** The promise around [this.expressServer = this.expressApp!.listen(port,
    '0.0.0.0', () => { this.currentPort = port; resolve(); })] and
    [this.expressServer.on("error", reject)].  [listen] throws at once on
    a port outside 0..65535, before the assignment; otherwise the new
    server object is stored, and then either the listening callback or
    the error event fires. *)
Definition listen_promise (port : Z) : M unit :=
  t <- get_this ;;
  match expressApp t with
  | None => throw (Error "Cannot read properties of null (reading 'listen')")
  | Some root =>
      if valid_port port then
        w <- get_world ;;
        let h := fresh w in
        put_world (with_fresh (log_event w (EvListen h port root)) (S h)) ;;
        set_expressServer (Some h) ;;
        w <- get_world ;;
        if port_taken w port then
          emit (EvListenError h port) ;;
          throw (Error ("listen EADDRINUSE: address already in use 0.0.0.0:"
                        +:+ string_of_Z port))
        else
          emit (EvListening h port root) ;;
          set_currentPort port
      else
        throw (Error ("options.port should be >= 0 and < 65536. Received "
                      +:+ string_of_Z port +:+ "."))
  end.

Definition chrome_launch : M nat :=
  w <- get_world ;;
  let pid := fresh w in
  if chrome_starts env pid then
    put_world (with_browsers (with_fresh (log_event w (EvChromeLaunch pid)) (S pid))
                             (pid :: browsers w)) ;;
    ret pid
  else throw (Error "No Chrome installations found.").

Definition chrome_kill (pid : nat) : M unit :=
  w <- get_world ;;
  put_world (with_browsers (log_event w (EvChromeKill pid))
                           (List.filter (fun p => negb (Nat.eqb p pid)) (browsers w))).

Definition run_lighthouse (url : string) (cats : list string) : M (option LH.lhr) :=
  emit (EvLighthouse url cats) ;;
  match lighthouse env url cats with
  | LHThrows e => throw e
  | LHNoResult => ret None
  | LHResult r => ret (Some r)
  end.

Definition puppeteer_connect (pid : nat) (o : CaptureOutcome) : M unit :=
  emit (EvConnect pid) ;;
  match o with
  | ConnectFails e => throw e
  | _ => ret tt
  end.

Definition browser_disconnect (pid : nat) : M unit := emit (EvDisconnect pid).

(** [newPage], [setViewport], [goto], the settle delay, [screenshot] and
    the two [scrollWidth]/[scrollHeight] evaluations. *)
Definition page_capture (url : string) (width height : Z) (o : CaptureOutcome)
  : M (string * Z * Z) :=
  emit (EvScreenshot url width height) ;;
  match o with
  | Captured png sw sh => ret (png, sw, sh)
  | PageFails e => throw e
  | ConnectFails e => throw e
  end.

(** *** [ensureTempDir] (started by the constructor) *)

Definition ensureTempDir : M unit :=
  try_catch (mkdir_recursive TEMP_DIR) (fun _ => ret tt).

(** *** [stopServer] *)

Definition stopServer : M unit :=
  t <- get_this ;;
  match expressServer t with
  | Some h =>
      server_close h ;;
      set_expressServer None ;;
      set_expressApp None
  | None => ret tt
  end ;;
  t <- get_this ;;
  match currentHtmlFile t with
  | Some f =>
      try_catch (unlink f) (fun _ => ret tt) ;;
      set_currentHtmlFile None
  | None => ret tt
  end.

(** *** [handleStopServer] *)

Definition failure_reply (error : Err) : Reply :=
  {| content := JObj [("success", JBool false); ("error", JStr (message error))];
     isError := true |}.

Definition handleStopServer : M Reply :=
  try_catch
    (stopServer ;;
     ret {| content := JObj [("success", JBool true);
                             ("message", JStr "Server stopped successfully")];
            isError := false |})
    (fun error => ret (failure_reply error)).

(** *** [handleServeHtml] *)

Definition handleServeHtml (args : ServeHtml.args) : M Reply :=
  try_catch
    (let htmlContent := ServeHtml.html_content args in
     let filename := string_or (ServeHtml.filename args) "index.html" in
     let port := number_or (ServeHtml.port args) DEFAULT_PORT in
     t <- get_this ;;
     match expressServer t with
     | Some _ => stopServer
     | None => ret tt
     end ;;
     let filePath := path_join TEMP_DIR filename in
     writeFile filePath htmlContent ;;
     set_currentHtmlFile (Some filePath) ;;
     set_expressApp (Some TEMP_DIR) ;;
     listen_promise port ;;
     let url := "http://localhost:" +:+ string_of_Z port +:+ "/" +:+ filename in
     ret {| content :=
              JObj [("success", JBool true);
                    ("url", JStr url);
                    ("port", JInt port);
                    ("filename", JStr filename);
                    ("message",
                     JStr ("Server started successfully. HTML file is being served at "
                           +:+ url))];
            isError := false |})
    (fun error => ret (failure_reply error)).

(** *** [handleDeployZip] *)

Definition handleDeployZip (args : DeployZip.args) : M Reply :=
  try_catch
    (let zipContent := DeployZip.zip_content args in
     let port := number_or (DeployZip.port args) DEFAULT_PORT in
     t <- get_this ;;
     match expressServer t with
     | Some _ => stopServer
     | None => ret tt
     end ;;
     ms <- Date_now ;;
     let deployDir := path_join TEMP_DIR ("deploy-" +:+ string_of_Z ms) in
     mkdir_recursive deployDir ;;
     let zipPath := path_join deployDir "deploy.zip" in
     (* the file holds the bytes the base64 text decodes to *)
     writeFile zipPath zipContent ;;
     execAsync ("unzip -q " +:+ path_to_string zipPath +:+ " -d "
                +:+ path_to_string deployDir) None ;;
     _ <- readdir deployDir ;;
     let rootDir := "" in
     let appPath := path_join deployDir (string_or (Some rootDir) "") in
     execAsync "npm install" (Some appPath) ;;
     execAsync "npm run build" (Some appPath) ;;
     let distPath := path_join appPath "dist" in
     try_catch
       (access distPath ;;
        _ <- readdir distPath ;;
        ret tt)
       (fun _ => throw (Error ("Build directory not found at "
                               +:+ path_to_string distPath))) ;;
     set_expressApp (Some distPath) ;;
     listen_promise port ;;
     ret {| content :=
              JObj [("success", JBool true);
                    ("port", JInt port);
                    ("message",
                     JStr ("Application built and serving from "
                           +:+ path_to_string (path_join appPath "build")
                           +:+ " on port " +:+ string_of_Z port))];
            isError := false |})
    (fun error =>
       ret {| content := JObj [("success", JBool false);
                               ("error", JStr (message error));
                               ("stderr", JStr (string_or (Some (stderr error)) ""))];
              isError := true |}).

(** *** [handleAuditWithLighthouse] *)

(** [data.score ? Math.round(data.score * 100) : 0] *)
Definition category_score (score : option spec_float) : spec_float :=
  match score with
  | Some x =>
      if number_truthy x then Math_round (number_mul x number_100)
      else number_of_Z 0
  | None => number_of_Z 0
  end.

Definition collect_scores (cats : list (string * LH.category)) : list (string * JSON) :=
  map (fun cd : string * LH.category =>
         (fst cd, JObj [("score", JNum (category_score (LH.score (snd cd))));
                        ("title", JStr (LH.title (snd cd)))]))
      cats.

Definition optional_field (k : string) (o : option string) : list (string * JSON) :=
  match o with
  | Some s => [(k, JStr s)]
  | None => []
  end.

Definition metricsToExtract : list string :=
  ["first-contentful-paint"; "largest-contentful-paint"; "total-blocking-time";
   "cumulative-layout-shift"; "speed-index"].

Definition collect_metrics (audits : list (string * LH.audit)) : list (string * JSON) :=
  omap (fun metricKey =>
          match assoc metricKey audits with
          | Some a =>
              Some (metricKey,
                    JObj ([("title", JStr (LH.a_title a))]
                          ++ optional_field "displayValue" (LH.a_displayValue a)
                          ++ [("score", opt_num (LH.a_score a))]))
          | None => None
          end)
       metricsToExtract.

Definition is_opportunity (a : LH.audit) : bool :=
  match LH.a_details_type a with
  | Some ty => String.eqb ty "opportunity"
  | None => false
  end.

Definition is_diagnostic (a : LH.audit) : bool :=
  String.eqb (LH.a_scoreDisplayMode a) "informative"
  && match LH.a_score a with
     | Some x => SFltb x number_one
     | None => false
     end.

Definition collect_opportunities (audits : list (string * LH.audit)) : list JSON :=
  omap (fun ka : string * LH.audit =>
          let a := snd ka in
          if is_opportunity a then
            Some (JObj ([("title", JStr (LH.a_title a));
                         ("description", JStr (LH.a_description a));
                         ("score", opt_num (LH.a_score a))]
                        ++ optional_field "displayValue" (LH.a_displayValue a)))
          else None)
       audits.

Definition collect_diagnostics (audits : list (string * LH.audit)) : list JSON :=
  omap (fun ka : string * LH.audit =>
          let a := snd ka in
          if is_opportunity a then None
          else if is_diagnostic a then
            Some (JObj [("title", JStr (LH.a_title a));
                        ("description", JStr (LH.a_description a));
                        ("score", opt_num (LH.a_score a))])
          else None)
       audits.

Definition default_categories : list string :=
  ["performance"; "accessibility"; "best-practices"; "seo"; "pwa"].

Definition no_server_message : string :=
  "No server is currently running. Please deploy first using deploy_zip.".

(** [!url]: the argument is missing or the empty string. *)
Definition url_missing (u : option string) : bool :=
  match u with
  | Some s => String.eqb s ""
  | None => true
  end.

Definition handleAuditWithLighthouse (args : Audit.args) : M Reply :=
  try_catch
    (url <-
       (if url_missing (Audit.url args) then
          t <- get_this ;;
          match expressServer t with
          | None => throw (Error no_server_message)
          | Some _ => ret ("http://localhost:" +:+ string_of_Z (currentPort t))
          end
        else ret (default "" (Audit.url args))) ;;
     let categories :=
       match Audit.categories args with
       | Some cs => cs
       | None => default_categories
       end in
     chrome <- chrome_launch ;;
     runnerResult <- run_lighthouse url categories ;;
     chrome_kill chrome ;;
     match runnerResult with
     | None => throw (Error "Lighthouse audit failed to produce results")
     | Some report =>
         let results :=
           JObj [("url", JStr url);
                 ("fetchTime", JStr (LH.fetchTime report));
                 ("scores", JObj (collect_scores (LH.categories report)));
                 ("metrics", JObj (collect_metrics (LH.audits report)));
                 ("opportunities", JArr (collect_opportunities (LH.audits report)));
                 ("diagnostics", JArr (collect_diagnostics (LH.audits report)))] in
         ret {| content := JObj [("success", JBool true); ("audit", results)];
                isError := false |}
     end)
    (fun error => ret (failure_reply error)).

(** *** [handleCaptureScreenshot] *)

Definition handleCaptureScreenshot (args : Screenshot.args) : M Reply :=
  try_catch
    (let url := Screenshot.url args in
     let width := number_or (Screenshot.width args) 1280 in
     let height := number_or (Screenshot.height args) 800 in
     chrome <- chrome_launch ;;
     try_finally
       (let o := capture env url width height in
        puppeteer_connect chrome o ;;
        try_finally
          (shot <- page_capture url width height o ;;
           ret {| content :=
                    JObj [("success", JBool true);
                          ("screenshot", JStr ("data:image/png;base64," +:+ fst (fst shot)));
                          ("width", JInt (snd (fst shot)));
                          ("height", JInt (snd shot))];
                  isError := false |})
          (browser_disconnect chrome))
       (chrome_kill chrome))
    (fun error => ret (failure_reply error)).

(** *** The tool calls, one at a time *)

Inductive Call :=
| deploy_zip (a : DeployZip.args)
| serve_html (a : ServeHtml.args)
| audit_with_lighthouse (a : Audit.args)
| stop_server
| capture_screenshot (a : Screenshot.args).

Definition handle (c : Call) : M Reply :=
  match c with
  | deploy_zip a => handleDeployZip a
  | serve_html a => handleServeHtml a
  | audit_with_lighthouse a => handleAuditWithLighthouse a
  | stop_server => handleStopServer
  | capture_screenshot a => handleCaptureScreenshot a
  end.

(** The system after a sequence of calls (a handler never throws). *)
Fixpoint run (cs : list Call) (s : Sys) : Sys :=
  match cs with
  | [] => s
  | c :: rest => run rest (snd (handle c s))
  end.

End WebOptEnvServer.

(* ===================================================================== *)
(** ** A concrete installation, to run the handlers on                     *)
(* ===================================================================== *)

(** The script is [/app/dist/index.js]; [/app/temp] exists (the
    constructor's [ensureTempDir] has made it); port 3000 is held by
    another process. *)
Module Demo.

Definition dirname : list string := ["app"; "dist"].

(** The disk before the object is constructed. *)
Definition fs_installed : gmap (list string) Node :=
  <[ ["app"; "dist"] := Dir ]> (<[ ["app"] := Dir ]> ∅).

Definition fs0 : gmap (list string) Node :=
  <[ ["app"; "temp"] := Dir ]> (<[ ["app"; "dist"] := Dir ]> (<[ ["app"] := Dir ]> ∅)).

Definition world0 : World :=
  {| files := fs0; foreign_ports := [3000]; browsers := [];
     fresh := 0%nat; now := 1700000000000; trace := [] |}.

Definition sys0 : Sys := {| this := initial_state; world := world0 |}.

Definition deployDir : list string := ["app"; "temp"; "deploy-1700000000000"].

(** An archive that holds [index.html] alone (a static site, no
    [package.json]): [npm install] has nothing to do and [npm run build]
    finds no manifest. *)
Definition exec_static (cmd : string) (cwd : option (list string))
  (fs : gmap (list string) Node) : ExecResult :=
  if String.prefix "unzip -q " cmd
  then ExecOk (<[ deployDir ++ ["index.html"] := File "<h1>static</h1>" ]> fs)
  else if String.eqb cmd "npm install" then ExecOk fs
  else ExecFail fs "Command failed: npm run build"
         "npm error enoent Could not read package.json".

(** The double 0.57, as the division 57 / 100 gives it. *)
Definition score_057 : spec_float :=
  Eval vm_compute in SFdiv prec64 emax64 (number_of_Z 57) number_100.

(** The audit engine rejects a malformed URL by throwing, and reports a
    performance score of 0.57 and no SEO score otherwise; the page of an
    unroutable address never loads. *)
Definition env : Env :=
  {| exec := exec_static;
     chrome_starts := fun _ => true;
     lighthouse := fun u _ =>
       if String.prefix "http" u
       then LHResult {| LH.fetchTime := "2025-01-01T00:00:00.000Z";
                        LH.categories :=
                          [("performance",
                            {| LH.score := Some score_057; LH.title := "Performance" |});
                           ("seo", {| LH.score := None; LH.title := "SEO" |})];
                        LH.audits := [] |}
       else LHThrows (Error "INVALID_URL");
     capture := fun _ _ _ =>
       PageFails (Error "Navigation timeout of 30000 ms exceeded") |}.

(** An archive that holds a [package.json]; the build makes [dist/] when
    [with_dist] is set and nothing otherwise. *)
Definition exec_app (with_dist : bool) (cmd : string) (cwd : option (list string))
  (fs : gmap (list string) Node) : ExecResult :=
  if String.prefix "unzip -q " cmd
  then ExecOk (<[ deployDir ++ ["package.json"] := File "{ }" ]> fs)
  else if String.eqb cmd "npm install"
  then ExecOk (<[ deployDir ++ ["node_modules"] := Dir ]> fs)
  else if with_dist
  then ExecOk (<[ deployDir ++ ["dist"; "index.html"] := File "<h1>built</h1>" ]>
                 (<[ deployDir ++ ["dist"] := Dir ]> fs))
  else ExecOk fs.

Definition env_app (with_dist : bool) : Env :=
  {| exec := exec_app with_dist;
     chrome_starts := chrome_starts env;
     lighthouse := lighthouse env;
     capture := capture env |}.

Definition zip : DeployZip.args :=
  {| DeployZip.zip_content := "UEsDBAoAAAAAAA=="; DeployZip.port := None |}.

Definition html (f : option string) (p : option Z) : ServeHtml.args :=
  {| ServeHtml.html_content := "<h1>x</h1>"; ServeHtml.filename := f;
     ServeHtml.port := p |}.

Definition no_args : Audit.args := {| Audit.url := None; Audit.categories := None |}.

End Demo.

(* ===================================================================== *)
(** ** Replies named in the properties                                     *)
(* ===================================================================== *)

Definition stopped_reply : Reply :=
  {| content := JObj [("success", JBool true);
                      ("message", JStr "Server stopped successfully")];
     isError := false |}.

Definition no_server_reply : Reply := failure_reply (Error no_server_message).

(* ===================================================================== *)
(** ** The single-server invariant                                         *)
(* ===================================================================== *)

(** At every point of a history (after each of its prefixes) at most one
    listener is bound. *)
Definition single_server (t : list Event) : Prop :=
  ∀ p : list Event, p `prefix_of` t → (length (listeners p) ≤ 1)%nat.

(** The history has the single-server property, and the handle the object
    holds is the one any bound listener has. *)
Definition Consistent (s : Sys) : Prop :=
  single_server (trace (world s))
  ∧ ∀ l : Listener, In l (bound (world s)) →
      expressServer (this s) = Some (l_handle l).

(** [serve_html] and [deploy_zip] set a server up. *)
Definition is_setup (c : Call) : bool :=
  match c with
  | deploy_zip _ | serve_html _ => true
  | _ => false
  end.

(** What [stopServer] does to the history, from the fields it reads. *)
Definition teardown_events (t : State) : list Event :=
  match expressServer t with Some h => [EvClose h] | None => [] end
  ++ match currentHtmlFile t with Some f => [EvUnlink f] | None => [] end.

(* ===================================================================== *)
(** ** Reading a history                                                   *)
(* ===================================================================== *)

Definition written_paths (t : list Event) : list (list string) :=
  omap (fun e => match e with EvWriteFile p _ => Some p | _ => None end) t.

Definition made_dirs (t : list Event) : list (list string) :=
  omap (fun e => match e with EvMkdir p => Some p | _ => None end) t.

Definition served_roots (t : list Event) : list (list string) :=
  omap (fun e => match e with EvListen _ _ root => Some root | _ => None end) t.

Definition commands (t : list Event) : list string :=
  omap (fun e => match e with EvExec cmd _ => Some cmd | _ => None end) t.

Definition audited_urls (t : list Event) : list string :=
  omap (fun e => match e with EvLighthouse u _ => Some u | _ => None end) t.

Definition killed (t : list Event) : list nat :=
  omap (fun e => match e with EvChromeKill pid => Some pid | _ => None end) t.

(** A file name that is one plain segment: no slash, not empty, not ["."]
    and not [".."]. *)
Fixpoint no_slash (s : string) : bool :=
  match s with
  | EmptyString => true
  | String c r => negb (Ascii.eqb c "/"%char) && no_slash r
  end.

Definition simple_segment (s : string) : bool :=
  no_slash s && negb (String.eqb s "") && negb (String.eqb s ".")
  && negb (String.eqb s "..").

(* ===================================================================== *)
(** ** Normalized scores                                                   *)
(* ===================================================================== *)

(** What the normalized score [out] of a category is, given the engine's
    native score: zero when there is none; for a double between 0 and 1,
    an integer between 0 and 100, which is [Math.round] of the product by
    100 when the score is not a zero. *)
Definition score_normalized (native : option spec_float) (out : spec_float) : Prop :=
  match native with
  | None => out = number_of_Z 0
  | Some x =>
      valid_binary prec64 emax64 x = true →
      SFleb (number_of_Z 0) x = true →
      SFleb x number_one = true →
      ∃ k : Z,
        0 <= k <= 100
        ∧ out = number_of_Z k
        ∧ (number_truthy x = true → out = Math_round (number_mul x number_100))
        ∧ (number_truthy x = false → k = 0)
  end.

(** [y] is the record [x] shifted right by [k] bits: the mantissa is the
    quotient, and the round and sticky bits stay clear when the bits
    shifted out are zeros. *)
Definition shifted (k : Z) (x y : shr_record) : Prop :=
  0 <= shr_m y
  ∧ shr_m y = shr_m x / 2 ^ k
  ∧ (shr_m x mod 2 ^ k = 0 → shr_r x = false → shr_s x = false →
     shr_r y = false ∧ shr_s y = false).


(* ===================================================================== *)
(** ** Further readings of a history and of a reply                        *)
(* ===================================================================== *)

Definition listen_ports (t : list Event) : list Z :=
  omap (fun e => match e with EvListen _ p _ => Some p | _ => None end) t.

(** The listener a successful setup leaves: the server object made by the
    call, on the requested or default port. *)
Definition listener_of (w : World) (port : option Z) (root : list string) : Listener :=
  {| l_handle := fresh w; l_port := number_or port DEFAULT_PORT; l_root := root |}.

(** The directory [deploy_zip] extracts into, and the one it serves. *)
Definition deployDir_of (dirname : list string) (w : World) : list string :=
  path_join (TEMP_DIR dirname) ("deploy-" +:+ string_of_Z (now w)).

Definition distPath_of (dirname : list string) (w : World) : list string :=
  path_join (path_join (deployDir_of dirname w) "") "dist".

(** The port argument of a call that sets a server up. *)
Definition port_of (c : Call) : option Z :=
  match c with
  | deploy_zip a => DeployZip.port a
  | serve_html a => ServeHtml.port a
  | _ => None
  end.

(** The error [listen] throws for a port outside 0..65535. *)
Definition bad_port_error (port : Z) : Err :=
  Error ("options.port should be >= 0 and < 65536. Received "
         +:+ string_of_Z port +:+ ".").

(** The success reply of [serve_html]. *)
Definition served_reply (a : ServeHtml.args) : Reply :=
  let filename := string_or (ServeHtml.filename a) "index.html" in
  let port := number_or (ServeHtml.port a) DEFAULT_PORT in
  let url := "http://localhost:" +:+ string_of_Z port +:+ "/" +:+ filename in
  {| content :=
       JObj [("success", JBool true);
             ("url", JStr url);
             ("port", JInt port);
             ("filename", JStr filename);
             ("message",
              JStr ("Server started successfully. HTML file is being served at "
                    +:+ url))];
     isError := false |}.

(** The calls that only look: an audit or a screenshot. *)
Definition is_inspection (c : Call) : bool :=
  match c with
  | audit_with_lighthouse _ | capture_screenshot _ => true
  | _ => false
  end.

(** The shell commands of a deployment, in the order the handler runs
    them. *)
Definition unzip_command (dirname : list string) (w : World) : string :=
  "unzip -q " +:+ path_to_string (path_join (deployDir_of dirname w) "deploy.zip")
  +:+ " -d " +:+ path_to_string (deployDir_of dirname w).

Definition deploy_commands (dirname : list string) (w : World) : list string :=
  [unzip_command dirname w; "npm install"; "npm run build"].

Definition unlinked (t : list Event) : list (list string) :=
  omap (fun e => match e with EvUnlink p => Some p | _ => None end) t.

(* ===================================================================== *)
(** ** The tool table and the dispatch                                     *)
(* ===================================================================== *)

(** A tool as [ListTools] advertises it: its name, the properties of its
    input schema and the required ones (none where the schema has no
    [required]). *)
Record Tool := {
  tool_name : string;
  tool_properties : list string;
  tool_required : list string;
}.

Definition tools : list Tool :=
  [ {| tool_name := "deploy_zip";
       tool_properties := ["zip_content"; "port"];
       tool_required := ["zip_content"] |};
    {| tool_name := "serve_html";
       tool_properties := ["html_content"; "filename"; "port"];
       tool_required := ["html_content"] |};
    {| tool_name := "audit_with_lighthouse";
       tool_properties := ["url"; "categories"];
       tool_required := [] |};
    {| tool_name := "stop_server";
       tool_properties := [];
       tool_required := [] |};
    {| tool_name := "capture_screenshot";
       tool_properties := ["url"; "width"; "height"];
       tool_required := ["url"] |} ].

Inductive Handler :=
| HandleDeployZip
| HandleServeHtml
| HandleAuditWithLighthouse
| HandleStopServer
| HandleCaptureScreenshot.

(** The [switch (request.params.name)] of the [CallTool] handler. *)
Definition route (name : string) : option Handler :=
  if String.eqb name "deploy_zip" then Some HandleDeployZip
  else if String.eqb name "serve_html" then Some HandleServeHtml
  else if String.eqb name "audit_with_lighthouse" then Some HandleAuditWithLighthouse
  else if String.eqb name "stop_server" then Some HandleStopServer
  else if String.eqb name "capture_screenshot" then Some HandleCaptureScreenshot
  else None.

(** The [CallTool] handler; [invoke h] is the handler [h] on the arguments
    of the request.  The [default] case throws, outside any [try]. *)
Definition callTool (name : string) (invoke : Handler → M Reply) : M Reply :=
  match route name with
  | Some h => invoke h
  | None => throw (Error ("Unknown tool: " +:+ name))
  end.

(** The handler a call goes to, and the name it is requested under. *)
Definition handler_of (c : Call) : Handler :=
  match c with
  | deploy_zip _ => HandleDeployZip
  | serve_html _ => HandleServeHtml
  | audit_with_lighthouse _ => HandleAuditWithLighthouse
  | stop_server => HandleStopServer
  | capture_screenshot _ => HandleCaptureScreenshot
  end.

Definition name_of (c : Call) : string :=
  match c with
  | deploy_zip _ => "deploy_zip"
  | serve_html _ => "serve_html"
  | audit_with_lighthouse _ => "audit_with_lighthouse"
  | stop_server => "stop_server"
  | capture_screenshot _ => "capture_screenshot"
  end.

(** The audits of a report, without their keys. *)
Definition audit_list (r : LH.lhr) : list LH.audit := map snd (LH.audits r).

Definition reported (audits : list (string * LH.audit)) (k : string) : bool :=
  match assoc k audits with Some _ => true | None => false end.

(** The titles of a list of findings. *)
Definition titles (l : list JSON) : list string :=
  omap (fun j => match field "title" j with
                 | Some (JStr t) => Some t
                 | _ => None
                 end) l.

(* ===================================================================== *)
(** ** A report with audits, and a disk before the first start             *)
(* ===================================================================== *)

Module Sample.

Definition finding (title : string) (displayValue : option string)
  (score : option spec_float) (details : option string) (mode : string)
  : LH.audit :=
  {| LH.a_title := title; LH.a_description := title +:+ ".";
     LH.a_displayValue := displayValue; LH.a_score := score;
     LH.a_details_type := details; LH.a_scoreDisplayMode := mode |}.

(** Two of the five metrics, an opportunity, an informative opportunity,
    an informative audit that is not one, and a passed check. *)
Definition report : LH.lhr :=
  {| LH.fetchTime := "2025-01-01T00:00:00.000Z";
     LH.categories :=
       [("performance",
         {| LH.score := Some Demo.score_057; LH.title := "Performance" |})];
     LH.audits :=
       [("viewport",
         finding "Has a viewport tag" None (Some number_one) None "binary");
        ("speed-index",
         finding "Speed Index" (Some "2.0 s") (Some Demo.score_057) None "numeric");
        ("unused-css-rules",
         finding "Reduce unused CSS" (Some "Est savings of 12 KiB")
           (Some Demo.score_057) (Some "opportunity") "metricSavings");
        ("first-contentful-paint",
         finding "First Contentful Paint" (Some "1.2 s") (Some Demo.score_057)
           None "numeric");
        ("render-blocking-resources",
         finding "Eliminate render-blocking resources" None
           (Some Demo.score_057) (Some "opportunity") "informative");
        ("dom-size",
         finding "Avoid an excessive DOM size" (Some "1,200 elements")
           (Some Demo.score_057) (Some "table") "informative")] |}.

Definition env : Env :=
  {| exec := Demo.exec_static;
     chrome_starts := fun _ => true;
     lighthouse := fun _ _ => LHResult report;
     capture := capture Demo.env |}.

Definition args : Audit.args :=
  {| Audit.url := Some "http://localhost:8080/index.html";
     Audit.categories := None |}.


End Sample.
(* ===================================================================== *)
(** ** Running a handler symbolically                                      *)
(* ===================================================================== *)

Ltac open_sys s :=
  let app := fresh "app" in
  let srv := fresh "srv" in
  let prt := fresh "prt" in
  let htm := fresh "htm" in
  let fs := fresh "fs" in
  let fp := fresh "fp" in
  let br := fresh "br" in
  let fr := fresh "fr" in
  let nw := fresh "nw" in
  let tr := fresh "tr" in
  destruct s as [[app srv prt htm] [fs fp br fr nw tr]].

Ltac unfold_prims :=
  unfold mkdir_recursive, writeFile, unlink, access, readdir, execAsync, Date_now,
    server_close, listen_promise, chrome_launch, chrome_kill, run_lighthouse,
    puppeteer_connect, browser_disconnect, page_capture,
    set_expressApp, set_expressServer, set_currentPort, set_currentHtmlFile,
    emit, try_catch, try_finally, bind, ret, throw,
    get_this, get_world, put_this, put_world,
    log_event, with_files, with_browsers, with_fresh in *.

(** Case analysis on the innermost scrutinee of the goal, or of a
    hypothesis. *)
Ltac split_match :=
  match goal with
  | |- context [match ?x with _ => _ end] =>
      lazymatch x with
      | context [match _ with _ => _ end] => fail
      | _ => destruct x eqn:?
      end
  | H : context [match ?x with _ => _ end] |- _ =>
      lazymatch x with
      | context [match _ with _ => _ end] => fail
      | _ => destruct x eqn:?
      end
  end.

(* ===================================================================== *)
(** ** The installation the examples run on                                *)
(* ===================================================================== *)

(** [Demo.fs0] is the disk once the constructor's [ensureTempDir] has run
    on the installed one. *)
Lemma demo_temp_dir_made :
  let boot := {| this := initial_state;
                 world := with_files Demo.world0 Demo.fs_installed |} in
  fst (ensureTempDir Demo.dirname boot) = Ret tt
  ∧ files (world (snd (ensureTempDir Demo.dirname boot))) = Demo.fs0.
Proof. split; vm_compute; reflexivity. Qed.

(* ===================================================================== *)
(** ** Stopping                                                            *)
(* ===================================================================== *)

(** [stopServer] never throws: the only fallible step, the unlink, sits in
    a [try]/[catch] that ignores the error. *)
Lemma stopServer_returns (s : Sys) : fst (stopServer s) = Ret tt.
Proof.
  open_sys s. unfold stopServer. unfold_prims. simpl.
  repeat (split_match; simpl; try reflexivity).
Qed.

Lemma stopServer_idle (s : Sys) : Idle (this (snd (stopServer s))).
Proof.
  open_sys s. unfold stopServer, Idle. unfold_prims. simpl.
  repeat (split_match; simpl; try (split; reflexivity)).
Qed.

Lemma stopServer_noop (s : Sys) : Idle (this s) → stopServer s = (Ret tt, s).
Proof.
  open_sys s. unfold Idle. simpl. intros [-> ->]. reflexivity.
Qed.

Lemma handleStopServer_eq (s : Sys) :
  handleStopServer s = (Ret stopped_reply, snd (stopServer s)).
Proof.
  unfold handleStopServer, try_catch, bind, ret.
  pose proof (stopServer_returns s) as H.
  destruct (stopServer s) as [o s']. simpl in *. subst o. reflexivity.
Qed.

(** C7.  Stopping when already Idle succeeds and does nothing: the reply is
    the success reply of [stop_server], and the object and the world (its
    history of side effects included) are what they were.  A stop from any
    state ends Idle, so a second stop is such a no-op: [stop_server] is
    idempotent. *)
Theorem stop_server_idle_noop (s : Sys) (Hidle : Idle (this s)) :
  handleStopServer s = (Ret stopped_reply, s)
  ∧ success stopped_reply = true
  ∧ isError stopped_reply = false
  ∧ (∀ s0 : Sys,
       let s1 := snd (handleStopServer s0) in
       Idle (this s1) ∧ handleStopServer s1 = (Ret stopped_reply, s1)).
Proof.
  split; [|split; [reflexivity|split; [reflexivity|]]].
  - rewrite handleStopServer_eq. rewrite (stopServer_noop s Hidle). reflexivity.
  - intros s0. simpl. rewrite handleStopServer_eq. simpl.
    pose proof (stopServer_idle s0) as Hs0. split; [exact Hs0|].
    rewrite handleStopServer_eq. rewrite (stopServer_noop _ Hs0). reflexivity.
Qed.

Lemma stop_server_idle_noop_witness :
  Idle (this Demo.sys0)
  ∧ handleStopServer Demo.sys0 = (Ret stopped_reply, Demo.sys0).
Proof.
  assert (H : Idle (this Demo.sys0)) by (split; reflexivity).
  split; [exact H|].
  exact (proj1 (stop_server_idle_noop Demo.sys0 H)).
Defined.

(* ===================================================================== *)
(** ** Serving one HTML file                                               *)
(* ===================================================================== *)

Arguments fs_writeFile : simpl never.
Arguments fs_unlink : simpl never.
Arguments fs_mkdir_recursive : simpl never.
Arguments fs_exists : simpl never.
Arguments is_dir : simpl never.
Arguments port_taken : simpl never.
Arguments valid_port : simpl never.
Arguments path_join : simpl never.
Arguments path_to_string : simpl never.
Arguments string_of_Z : simpl never.
Arguments String.append : simpl never.
Arguments listeners : simpl never.

(** A handler catches whatever its body throws: it always returns a
    reply. *)
Lemma handleServeHtml_returns (dirname : list string) (a : ServeHtml.args) (s : Sys) :
  ∃ r, fst (handleServeHtml dirname a s) = Ret r.
Proof.
  open_sys s. unfold handleServeHtml, stopServer. unfold_prims. simpl.
  repeat (split_match; simpl; try (eexists; reflexivity)).
Qed.

(** C8.  A [serve_html] call that gives the HTML and neither a port nor a
    file name always returns a reply, and when the reply is a success its
    port is 8080, its file name is [index.html] and its url is
    [http://localhost:8080/index.html]. *)
Theorem serve_html_defaults (dirname : list string) (html : string) (s : Sys) :
  ∃ (r : Reply) (s' : Sys),
    handleServeHtml dirname
      {| ServeHtml.html_content := html; ServeHtml.filename := None;
         ServeHtml.port := None |} s = (Ret r, s')
    ∧ (success r = true →
       field "port" (content r) = Some (JInt 8080)
       ∧ field "filename" (content r) = Some (JStr "index.html")
       ∧ field "url" (content r) = Some (JStr "http://localhost:8080/index.html")).
Proof.
  open_sys s. unfold handleServeHtml, stopServer. unfold_prims. simpl.
  repeat (split_match; simpl);
    (eexists; eexists; split; [reflexivity|]);
    simpl; intros Hok; try discriminate Hok;
    repeat split; reflexivity.
Qed.

Lemma serve_html_defaults_witness :
  ∃ (r : Reply) (s' : Sys),
    handleServeHtml Demo.dirname (Demo.html None None) Demo.sys0 = (Ret r, s')
    ∧ success r = true
    ∧ field "url" (content r) = Some (JStr "http://localhost:8080/index.html").
Proof.
  destruct (serve_html_defaults Demo.dirname "<h1>x</h1>" Demo.sys0)
    as (r & s' & Hrun & Hfields).
  exists r, s'. split; [exact Hrun|].
  assert (Hok : success r = true).
  { vm_compute in Hrun. injection Hrun as <- _. reflexivity. }
  split; [exact Hok|]. exact (proj2 (proj2 (Hfields Hok))).
Defined.

(* ===================================================================== *)
(** ** The audit precondition                                              *)
(* ===================================================================== *)

(** C6.  An audit asked for with no url while no server handle is recorded
    returns the failure reply [{success: false, error}] flagged [isError],
    whose message says that no server is running; the handler returns (it
    does not throw), and the object and the world are untouched: no browser
    is launched. *)
Theorem audit_without_server_fails (env : Env) (a : Audit.args) (s : Sys)
  (Hurl : url_missing (Audit.url a) = true)
  (Hsrv : expressServer (this s) = None) :
  handleAuditWithLighthouse env a s = (Ret no_server_reply, s)
  ∧ content no_server_reply
    = JObj [("success", JBool false); ("error", JStr no_server_message)]
  ∧ isError no_server_reply = true
  ∧ String.prefix "No server is currently running" no_server_message = true.
Proof.
  split; [|repeat split; reflexivity].
  open_sys s. simpl in Hsrv. subst srv.
  unfold handleAuditWithLighthouse. unfold_prims. simpl.
  rewrite Hurl. reflexivity.
Qed.

Lemma audit_without_server_fails_witness :
  handleAuditWithLighthouse Demo.env Demo.no_args Demo.sys0
  = (Ret no_server_reply, Demo.sys0).
Proof.
  exact (proj1 (audit_without_server_fails Demo.env Demo.no_args Demo.sys0
                  eq_refl eq_refl)).
Defined.

(* ===================================================================== *)
(** ** Every tool call is answered                                         *)
(* ===================================================================== *)

(** The body of every handler is inside a [try] whose [catch] returns the
    failure reply: no tool call throws. *)
Lemma handle_returns (env : Env) (dirname : list string) (c : Call) (s : Sys) :
  ∃ r : Reply, fst (handle env dirname c s) = Ret r.
Proof.
  destruct c as [a|a|a| |a]; simpl.
  - unfold handleDeployZip, try_catch.
    match goal with |- context [match ?m s with _ => _ end] => destruct (m s) as [[q|e] s1] end;
      simpl; eexists; reflexivity.
  - apply handleServeHtml_returns.
  - unfold handleAuditWithLighthouse, try_catch.
    match goal with |- context [match ?m s with _ => _ end] => destruct (m s) as [[q|e] s1] end;
      simpl; eexists; reflexivity.
  - rewrite handleStopServer_eq. eexists. reflexivity.
  - unfold handleCaptureScreenshot, try_catch.
    match goal with |- context [match ?m s with _ => _ end] => destruct (m s) as [[q|e] s1] end;
      simpl; eexists; reflexivity.
Qed.

(* ===================================================================== *)
(** ** At most one server                                                  *)
(* ===================================================================== *)

Lemma listeners_snoc (t : list Event) (e : Event) :
  listeners (t ++ [e]) = apply_event (listeners t) e.
Proof. unfold listeners. rewrite fold_left_app. reflexivity. Qed.

Lemma exists_last_or_nil {A} (k : list A) : k = [] ∨ ∃ k' x, k = k' ++ [x].
Proof.
  induction k as [|a k IH] using rev_ind; [left; reflexivity|].
  right. exists k, a. reflexivity.
Qed.

Lemma single_server_nil : single_server [].
Proof.
  intros p Hp. apply prefix_nil_inv in Hp. subst p. simpl. lia.
Qed.

Lemma single_server_snoc (t : list Event) (e : Event) :
  single_server t →
  (length (listeners (t ++ [e])) ≤ 1)%nat →
  single_server (t ++ [e]).
Proof.
  intros Ht He p [k Hk].
  destruct (exists_last_or_nil k) as [->|[k' [x ->]]].
  - rewrite app_nil_r in Hk. subst p. exact He.
  - rewrite app_assoc in Hk. apply app_inj_tail in Hk as [-> _].
    apply Ht. exists k'. reflexivity.
Qed.

Lemma single_server_bound (t : list Event) :
  single_server t → (length (listeners t) ≤ 1)%nat.
Proof. intros H. apply H. reflexivity. Qed.

(** Under the invariant, either nothing is bound or exactly the recorded
    server is. *)
Lemma consistent_cases (s : Sys) :
  Consistent s →
  bound (world s) = []
  ∨ ∃ l, bound (world s) = [l] ∧ expressServer (this s) = Some (l_handle l).
Proof.
  intros [Hone Hsrv]. apply single_server_bound in Hone.
  unfold bound in *. destruct (listeners (trace (world s))) as [|l [|l' r]].
  - left. reflexivity.
  - right. exists l. split; [reflexivity|]. apply Hsrv. left. reflexivity.
  - simpl in Hone. lia.
Qed.

Lemma consistent_fresh_start (t : State) (w : World) :
  trace w = [] → Consistent {| this := t; world := w |}.
Proof.
  intros Ht. split; simpl.
  - rewrite Ht. apply single_server_nil.
  - unfold bound. rewrite Ht. intros l [].
Qed.


(** Closes the invariant after a symbolic run: [Hb] says what was bound
    before, [Hone] that the history so far had the property. *)
Ltac bound_now Hb :=
  unfold bound; simpl; rewrite ?listeners_snoc, ?Hb; simpl;
  rewrite ?Nat.eqb_refl; simpl.

Ltac close_consistent Hone Hb :=
  split;
  [ simpl;
    repeat (apply single_server_snoc; [|bound_now Hb; lia]);
    exact Hone
  | bound_now Hb;
    try (intros ? [<-|[]]; reflexivity);
    try (intros ? []) ].

Lemma handleStopServer_consistent (s : Sys) :
  Consistent s → Consistent (snd (handleStopServer s)).
Proof.
  intros Hc.
  destruct (consistent_cases s Hc) as [Hb|(l0 & Hb & Hsrv)];
    destruct Hc as [Hone _];
    open_sys s; unfold bound in Hb; simpl in *; try subst srv;
    unfold handleStopServer, stopServer; unfold_prims; simpl;
    repeat (split_match; simpl); close_consistent Hone Hb.
Qed.

Lemma handleServeHtml_consistent (dirname : list string) (a : ServeHtml.args) (s : Sys) :
  Consistent s → Consistent (snd (handleServeHtml dirname a s)).
Proof.
  intros Hc.
  destruct (consistent_cases s Hc) as [Hb|(l0 & Hb & Hsrv)];
    destruct Hc as [Hone _];
    open_sys s; unfold bound in Hb; simpl in *; try subst srv;
    unfold handleServeHtml, stopServer; unfold_prims; simpl;
    repeat (split_match; simpl); close_consistent Hone Hb.
Qed.

Lemma handleDeployZip_consistent (env : Env) (dirname : list string)
  (a : DeployZip.args) (s : Sys) :
  Consistent s → Consistent (snd (handleDeployZip env dirname a s)).
Proof.
  intros Hc.
  destruct (consistent_cases s Hc) as [Hb|(l0 & Hb & Hsrv)];
    destruct Hc as [Hone _];
    open_sys s; unfold bound in Hb; simpl in *; try subst srv;
    unfold handleDeployZip, stopServer; unfold_prims; simpl;
    repeat (split_match; simpl); close_consistent Hone Hb.
Qed.

Lemma handleAuditWithLighthouse_consistent (env : Env) (a : Audit.args) (s : Sys) :
  Consistent s → Consistent (snd (handleAuditWithLighthouse env a s)).
Proof.
  intros Hc.
  destruct (consistent_cases s Hc) as [Hb|(l0 & Hb & Hsrv)];
    destruct Hc as [Hone _];
    open_sys s; unfold bound in Hb; simpl in *; try subst srv;
    unfold handleAuditWithLighthouse; unfold_prims; simpl;
    repeat (split_match; simpl); close_consistent Hone Hb.
Qed.

Lemma handleCaptureScreenshot_consistent (env : Env) (a : Screenshot.args) (s : Sys) :
  Consistent s → Consistent (snd (handleCaptureScreenshot env a s)).
Proof.
  intros Hc.
  destruct (consistent_cases s Hc) as [Hb|(l0 & Hb & Hsrv)];
    destruct Hc as [Hone _];
    open_sys s; unfold bound in Hb; simpl in *; try subst srv;
    unfold handleCaptureScreenshot; unfold_prims; simpl;
    repeat (split_match; simpl); close_consistent Hone Hb.
Qed.

Lemma handle_consistent (env : Env) (dirname : list string) (c : Call) (s : Sys) :
  Consistent s → Consistent (snd (handle env dirname c s)).
Proof.
  destruct c; simpl.
  - apply handleDeployZip_consistent.
  - apply handleServeHtml_consistent.
  - apply handleAuditWithLighthouse_consistent.
  - apply handleStopServer_consistent.
  - apply handleCaptureScreenshot_consistent.
Qed.

Lemma run_consistent (env : Env) (dirname : list string) (cs : list Call) (s : Sys) :
  Consistent s → Consistent (run env dirname cs s).
Proof.
  revert s. induction cs as [|c cs IH]; intros s Hc; simpl; [exact Hc|].
  apply IH. apply handle_consistent. exact Hc.
Qed.

(** *** Teardown comes first *)

Lemma fs_writeFile_Some (fs g : gmap (list string) Node) (p : list string) (c : string) :
  fs_writeFile fs p c = Some g → g = <[p := File c]> fs.
Proof.
  unfold fs_writeFile. destruct p; [discriminate|].
  destruct (_ && _); [|discriminate]. intros [= <-]. reflexivity.
Qed.

Lemma fs_unlink_Some (fs g : gmap (list string) Node) (p : list string) :
  fs_unlink fs p = Some g → is_file fs p = true ∧ g = delete p fs.
Proof.
  unfold fs_unlink. destruct (is_file fs p); [|discriminate].
  intros [= <-]. split; reflexivity.
Qed.

Lemma fs_unlink_None (fs : gmap (list string) Node) (p : list string) :
  fs_unlink fs p = None → is_file fs p = false.
Proof.
  unfold fs_unlink. destruct (is_file fs p); [discriminate|reflexivity].
Qed.

Lemma is_file_delete (fs : gmap (list string) Node) (p : list string) :
  is_file (delete p fs) p = false.
Proof. unfold is_file. rewrite lookup_delete_eq. reflexivity. Qed.

Lemma stopServer_trace (s : Sys) :
  trace (world (snd (stopServer s))) = trace (world s) ++ teardown_events (this s).
Proof.
  open_sys s. unfold stopServer, teardown_events. unfold_prims. simpl.
  repeat (split_match; simpl); rewrite <- ?app_assoc, ?app_nil_r; reflexivity.
Qed.

Lemma stopServer_unbinds (s : Sys) :
  Consistent s → bound (world (snd (stopServer s))) = [].
Proof.
  intros Hc.
  destruct (consistent_cases s Hc) as [Hb|(l0 & Hb & Hsrv)];
    open_sys s; unfold bound in Hb; simpl in *; try subst srv;
    unfold stopServer; unfold_prims; simpl;
    repeat (split_match; simpl); bound_now Hb; reflexivity.
Qed.

Lemma stopServer_deletes (s : Sys) (f : list string) :
  currentHtmlFile (this s) = Some f →
  is_file (files (world (snd (stopServer s)))) f = false.
Proof.
  open_sys s. simpl. intros ->.
  unfold stopServer. unfold_prims. simpl.
  repeat (split_match; simpl);
    try match goal with
        | H : fs_unlink _ _ = Some _ |- _ =>
            apply fs_unlink_Some in H as [_ ->]; apply is_file_delete
        | H : fs_unlink _ _ = None |- _ => apply fs_unlink_None in H; exact H
        end.
Qed.

Lemma stopServer_other_fields (s : Sys) :
  fresh (world (snd (stopServer s))) = fresh (world s)
  ∧ foreign_ports (world (snd (stopServer s))) = foreign_ports (world s)
  ∧ browsers (world (snd (stopServer s))) = browsers (world s)
  ∧ currentPort (this (snd (stopServer s))) = currentPort (this s).
Proof.
  open_sys s. unfold stopServer. unfold_prims. simpl.
  repeat (split_match; simpl); repeat split; reflexivity.
Qed.

(** A setup call made while a handle is recorded is the teardown followed
    by the same call on the stopped system. *)
Lemma handleServeHtml_stops_first (dirname : list string) (a : ServeHtml.args)
  (s : Sys) (h : nat) :
  expressServer (this s) = Some h →
  handleServeHtml dirname a s = handleServeHtml dirname a (snd (stopServer s)).
Proof.
  open_sys s. simpl. intros ->.
  unfold handleServeHtml, stopServer. unfold_prims. simpl.
  destruct htm as [f|]; simpl; [|reflexivity].
  destruct (fs_unlink fs f); reflexivity.
Qed.

Lemma handleDeployZip_stops_first (env : Env) (dirname : list string)
  (a : DeployZip.args) (s : Sys) (h : nat) :
  expressServer (this s) = Some h →
  handleDeployZip env dirname a s = handleDeployZip env dirname a (snd (stopServer s)).
Proof.
  open_sys s. simpl. intros ->.
  unfold handleDeployZip, stopServer. unfold_prims. simpl.
  destruct htm as [f|]; simpl; [|reflexivity].
  destruct (fs_unlink fs f); reflexivity.
Qed.

(** *** What a successful [serve_html] leaves *)

Lemma handleServeHtml_success (dirname : list string) (a : ServeHtml.args)
  (s : Sys) (r : Reply) (s' : Sys) :
  handleServeHtml dirname a s = (Ret r, s') →
  success r = true →
  let s0 := match expressServer (this s) with
            | Some _ => snd (stopServer s)
            | None => s
            end in
  let p := path_join (TEMP_DIR dirname) (string_or (ServeHtml.filename a) "index.html") in
  let port := number_or (ServeHtml.port a) DEFAULT_PORT in
  let h := fresh (world s) in
  this s' = {| expressApp := Some (TEMP_DIR dirname); expressServer := Some h;
               currentPort := port; currentHtmlFile := Some p |}
  ∧ files (world s') = <[p := File (ServeHtml.html_content a)]> (files (world s0))
  ∧ trace (world s')
    = trace (world s0)
      ++ [EvWriteFile p (ServeHtml.html_content a);
          EvListen h port (TEMP_DIR dirname);
          EvListening h port (TEMP_DIR dirname)].
Proof.
  intros Hrun Hok. simpl.
  destruct (expressServer (this s)) as [h0|] eqn:Hsrv.
  - rewrite (handleServeHtml_stops_first dirname a s h0 Hsrv) in Hrun.
    destruct (stopServer_other_fields s) as (Hfresh & _).
    pose proof (stopServer_idle s) as [Hidle _].
    rewrite <- Hfresh. clear Hfresh Hsrv.
    revert Hrun Hidle. generalize (snd (stopServer s)). clear s. intros s Hrun Hidle.
    open_sys s. simpl in *. subst srv.
    unfold handleServeHtml in Hrun. unfold_prims. simpl in Hrun.
    repeat (split_match; simpl in *; try discriminate);
      injection Hrun as <- <-; try discriminate; simpl;
      match goal with H : fs_writeFile _ _ _ = Some _ |- _ =>
        apply fs_writeFile_Some in H; subst end;
      rewrite <- ?app_assoc; simpl; repeat split; reflexivity.
  - open_sys s. simpl in *. subst srv.
    unfold handleServeHtml in Hrun. unfold_prims. simpl in Hrun.
    repeat (split_match; simpl in *; try discriminate);
      injection Hrun as <- <-; try discriminate; simpl;
      match goal with H : fs_writeFile _ _ _ = Some _ |- _ =>
        apply fs_writeFile_Some in H; subst end;
      rewrite <- ?app_assoc; simpl; repeat split; reflexivity.
Qed.

Lemma listeners_app (t u : list Event) :
  listeners (t ++ u) = fold_left apply_event u (listeners t).
Proof. unfold listeners. apply fold_left_app. Qed.

Lemma stopServer_files (s : Sys) :
  files (world (snd (stopServer s)))
  = match currentHtmlFile (this s) with
    | Some f => if is_file (files (world s)) f then delete f (files (world s))
                else files (world s)
    | None => files (world s)
    end.
Proof.
  open_sys s. unfold stopServer. unfold_prims. simpl.
  repeat (split_match; simpl);
    try match goal with
        | H : fs_unlink _ _ = Some _ |- _ => apply fs_unlink_Some in H as [? ->]
        | H : fs_unlink _ _ = None |- _ => apply fs_unlink_None in H
        end;
    congruence.
Qed.

(** Two [serve_html] calls in a row, both answered with a success. *)
Lemma serve_html_twice (dirname : list string) (a1 a2 : ServeHtml.args)
  (s s1 s2 : Sys) (r1 r2 : Reply) :
  Consistent s →
  handleServeHtml dirname a1 s = (Ret r1, s1) → success r1 = true →
  handleServeHtml dirname a2 s1 = (Ret r2, s2) → success r2 = true →
  let p1 := path_join (TEMP_DIR dirname) (string_or (ServeHtml.filename a1) "index.html") in
  let p2 := path_join (TEMP_DIR dirname) (string_or (ServeHtml.filename a2) "index.html") in
  let port2 := number_or (ServeHtml.port a2) DEFAULT_PORT in
  let h1 := fresh (world s) in
  let h2 := fresh (world s1) in
  bound (world s2)
  = [{| l_handle := h2; l_port := port2; l_root := TEMP_DIR dirname |}]
  ∧ trace (world s2)
    = trace (world s1)
      ++ [EvClose h1; EvUnlink p1;
          EvWriteFile p2 (ServeHtml.html_content a2);
          EvListen h2 port2 (TEMP_DIR dirname);
          EvListening h2 port2 (TEMP_DIR dirname)]
  ∧ files (world s2) !! p1
    = if decide (p1 = p2) then Some (File (ServeHtml.html_content a2)) else None.
Proof.
  intros Hc Hrun1 Hok1 Hrun2 Hok2. simpl.
  assert (Hc1 : Consistent s1).
  { replace s1 with (snd (handleServeHtml dirname a1 s)) by (rewrite Hrun1; reflexivity).
    apply handleServeHtml_consistent. exact Hc. }
  destruct (handleServeHtml_success _ _ _ _ _ Hrun1 Hok1) as (Hthis1 & Hfiles1 & _).
  destruct (handleServeHtml_success _ _ _ _ _ Hrun2 Hok2) as (_ & Hfiles2 & Htrace2).
  rewrite Hthis1 in Hfiles2, Htrace2. simpl in Hfiles2, Htrace2.
  rewrite stopServer_trace in Htrace2. rewrite Hthis1 in Htrace2.
  unfold teardown_events in Htrace2. simpl in Htrace2.
  rewrite <- app_assoc in Htrace2. simpl in Htrace2.
  split; [|split].
  - unfold bound. rewrite Htrace2.
    change (trace (world s1) ++ ?a :: ?b :: ?rest)
      with (trace (world s1) ++ [a; b] ++ rest).
    rewrite app_assoc, listeners_app.
    assert (Hstop : listeners (trace (world s1) ++ [EvClose (fresh (world s));
              EvUnlink (path_join (TEMP_DIR dirname)
                          (string_or (ServeHtml.filename a1) "index.html"))]) = []).
    { pose proof (stopServer_unbinds s1 Hc1) as Hu. unfold bound in Hu.
      rewrite stopServer_trace in Hu. rewrite Hthis1 in Hu. exact Hu. }
    rewrite Hstop. reflexivity.
  - exact Htrace2.
  - rewrite Hfiles2. rewrite stopServer_files. rewrite Hthis1. simpl.
    assert (Hfile : is_file (files (world s1))
              (path_join (TEMP_DIR dirname)
                 (string_or (ServeHtml.filename a1) "index.html")) = true).
    { rewrite Hfiles1. unfold is_file. rewrite lookup_insert_eq. reflexivity. }
    rewrite Hfile. case_decide as Heq.
    + rewrite Heq. apply lookup_insert_eq.
    + rewrite lookup_insert_ne by congruence. apply lookup_delete_eq.
Qed.

(** C1.  With the calls taken one at a time:
    (1) from a start with an empty history, after every sequence of tool
        calls and at every point of the history (every prefix of it) at
        most one listener is bound;
    (2) a [serve_html] or [deploy_zip] made while a server handle is
        recorded is the teardown followed by the same call on the stopped
        system: the teardown's events (the awaited close, then the unlink of
        the temp file when one is recorded) come first in the history, and
        when the teardown is over the object is Idle, nothing is bound and
        the temp file is not there; only then does the setup, with its
        [listen], run;
    (3) after two successful [serve_html] calls in a row exactly one
        listener is bound, on the second call's port; the second call's
        events are the close of the first server, the unlink of the first
        file, then the write and the listen; and the first call's path holds
        nothing, unless the second call wrote its own file there. *)
Theorem single_server_invariant (env : Env) (dirname : list string) :
  (∀ (cs : list Call) (t : State) (w : World),
     trace w = [] →
     single_server (trace (world (run env dirname cs {| this := t; world := w |}))))
  ∧ (∀ (c : Call) (s : Sys) (h : nat),
       is_setup c = true → Consistent s → expressServer (this s) = Some h →
       let s0 := snd (stopServer s) in
       handle env dirname c s = handle env dirname c s0
       ∧ trace (world s0) = trace (world s) ++ teardown_events (this s)
       ∧ Idle (this s0)
       ∧ bound (world s0) = []
       ∧ (∀ f, currentHtmlFile (this s) = Some f →
               is_file (files (world s0)) f = false))
  ∧ (∀ (a1 a2 : ServeHtml.args) (s s1 s2 : Sys) (r1 r2 : Reply),
       Consistent s →
       handleServeHtml dirname a1 s = (Ret r1, s1) → success r1 = true →
       handleServeHtml dirname a2 s1 = (Ret r2, s2) → success r2 = true →
       let p1 := path_join (TEMP_DIR dirname)
                   (string_or (ServeHtml.filename a1) "index.html") in
       let p2 := path_join (TEMP_DIR dirname)
                   (string_or (ServeHtml.filename a2) "index.html") in
       let port2 := number_or (ServeHtml.port a2) DEFAULT_PORT in
       let h1 := fresh (world s) in
       let h2 := fresh (world s1) in
       bound (world s2)
       = [{| l_handle := h2; l_port := port2; l_root := TEMP_DIR dirname |}]
       ∧ trace (world s2)
         = trace (world s1)
           ++ [EvClose h1; EvUnlink p1;
               EvWriteFile p2 (ServeHtml.html_content a2);
               EvListen h2 port2 (TEMP_DIR dirname);
               EvListening h2 port2 (TEMP_DIR dirname)]
       ∧ files (world s2) !! p1
         = if decide (p1 = p2) then Some (File (ServeHtml.html_content a2)) else None).
Proof.
  split; [|split].
  - intros cs t w Hw.
    apply (run_consistent env dirname cs). apply consistent_fresh_start. exact Hw.
  - intros c s h Hc Hs Hsrv. simpl.
    split; [|split; [|split; [|split]]].
    + destruct c; try discriminate Hc; simpl.
      * apply (handleDeployZip_stops_first env dirname a s h Hsrv).
      * apply (handleServeHtml_stops_first dirname a s h Hsrv).
    + apply stopServer_trace.
    + apply stopServer_idle.
    + apply stopServer_unbinds. exact Hs.
    + intros f Hf. apply stopServer_deletes. exact Hf.
  - intros a1 a2 s s1 s2 r1 r2 Hc H1 Hok1 H2 Hok2.
    exact (serve_html_twice dirname a1 a2 s s1 s2 r1 r2 Hc H1 Hok1 H2 Hok2).
Qed.

Lemma single_server_invariant_witness :
  let a1 := Demo.html (Some "a.html") None in
  let a2 := Demo.html (Some "b.html") (Some 9000) in
  let s2 := run Demo.env Demo.dirname [serve_html a1; serve_html a2] Demo.sys0 in
  single_server (trace (world s2))
  ∧ bound (world s2)
    = [{| l_handle := 1; l_port := 9000; l_root := ["app"; "temp"] |}]
  ∧ files (world s2) !! ["app"; "temp"; "a.html"] = None.
Proof.
  intros a1 a2 s2.
  destruct (single_server_invariant Demo.env Demo.dirname) as (Hany & _ & Htwice).
  split; [apply (Hany [serve_html a1; serve_html a2] initial_state Demo.world0 eq_refl)|].
  pose (r1 := handleServeHtml Demo.dirname a1 Demo.sys0).
  pose (r2 := handleServeHtml Demo.dirname a2 (snd r1)).
  assert (Hc : Consistent Demo.sys0) by (apply consistent_fresh_start; reflexivity).
  assert (H1 : ∃ q1, r1 = (Ret q1, snd r1) ∧ success q1 = true).
  { eexists. split; vm_compute; reflexivity. }
  assert (H2 : ∃ q2, r2 = (Ret q2, snd r2) ∧ success q2 = true).
  { eexists. split; vm_compute; reflexivity. }
  destruct H1 as (q1 & H1 & Hok1). destruct H2 as (q2 & H2 & Hok2).
  destruct (Htwice a1 a2 Demo.sys0 (snd r1) (snd r2) q1 q2 Hc H1 Hok1 H2 Hok2)
    as (Hb & _ & Hf).
  split.
  - vm_compute in Hb. vm_compute. exact Hb.
  - vm_compute in Hf. vm_compute. exact Hf.
Defined.

(* ===================================================================== *)
(** ** Where [serve_html] writes                                           *)
(* ===================================================================== *)

Lemma split_slash_no_slash (s : string) : no_slash s = true → split_slash s = [s].
Proof.
  induction s as [|c r IH]; simpl; [reflexivity|].
  intros H. apply andb_prop in H as [Hc Hr].
  apply negb_true_iff in Hc. rewrite Hc, (IH Hr). reflexivity.
Qed.

Lemma push_segment_simple (acc : list string) (seg : string) :
  simple_segment seg = true → push_segment acc seg = acc ++ [seg].
Proof.
  unfold simple_segment, push_segment. intros H.
  repeat (apply andb_prop in H as [H ?]).
  repeat match goal with
         | E : negb _ = true |- _ => apply negb_true_iff in E; rewrite E
         end.
  reflexivity.
Qed.

Lemma TEMP_DIR_eq (dirname : list string) :
  TEMP_DIR dirname = removelast dirname ++ ["temp"].
Proof. reflexivity. Qed.

(** A name of the form [../x] leaves the temp directory. *)
Lemma path_join_parent (dirname : list string) (name : string) :
  simple_segment name = true →
  path_join (TEMP_DIR dirname) ("../" +:+ name) = removelast dirname ++ [name].
Proof.
  intros Hname.
  assert (Hns : no_slash name = true).
  { unfold simple_segment in Hname.
    repeat (apply andb_prop in Hname as [Hname ?]). exact Hname. }
  change ("../" +:+ name) with (String "." (String "." (String "/" name))).
  unfold path_join at 1. simpl split_slash.
  rewrite (split_slash_no_slash name Hns). simpl fold_left.
  change (push_segment (TEMP_DIR dirname) "..") with (removelast (TEMP_DIR dirname)).
  rewrite TEMP_DIR_eq, removelast_last.
  apply push_segment_simple. exact Hname.
Qed.

Lemma outside_TEMP_DIR (dirname : list string) (name : string) :
  name ≠ "temp" → ¬ within (TEMP_DIR dirname) (removelast dirname ++ [name]).
Proof.
  intros Hne [k Hk]. rewrite TEMP_DIR_eq, <- app_assoc in Hk.
  apply app_inv_head in Hk. simpl in Hk. congruence.
Qed.

Lemma handleServeHtml_events (dirname : list string) (a : ServeHtml.args) (s : Sys) :
  let p := path_join (TEMP_DIR dirname) (string_or (ServeHtml.filename a) "index.html") in
  ∃ seg : list Event,
    trace (world (snd (handleServeHtml dirname a s))) = trace (world s) ++ seg
    ∧ written_paths seg = [p]
    ∧ made_dirs seg = []
    ∧ Forall (λ root, root = TEMP_DIR dirname) (served_roots seg).
Proof.
  open_sys s. unfold handleServeHtml, stopServer. unfold_prims. simpl.
  repeat (split_match; simpl);
    (eexists; split; [rewrite <- ?app_assoc; simpl; reflexivity|]);
    simpl; repeat split; repeat constructor.
Qed.

(** C10.  For every [serve_html] call, whatever the file name:
    - the call's one write goes to [path.join(TEMP_DIR, filename)]: the
      name is used as given, no directory is created for the call, and
      every server the call starts serves [TEMP_DIR];
    - when the reply is a success the HTML is the file at that path and the
      Express application serves [TEMP_DIR];
    - for a name [../x] (with [x] a plain segment other than [temp]) that
      path is [x] in the parent of the temp directory, outside it. *)
Theorem serve_html_writes_unchecked (dirname : list string) (a : ServeHtml.args)
  (s : Sys) :
  let p := path_join (TEMP_DIR dirname)
             (string_or (ServeHtml.filename a) "index.html") in
  (∃ seg : list Event,
     trace (world (snd (handleServeHtml dirname a s))) = trace (world s) ++ seg
     ∧ written_paths seg = [p]
     ∧ made_dirs seg = []
     ∧ Forall (λ root, root = TEMP_DIR dirname) (served_roots seg))
  ∧ (∀ (r : Reply) (s' : Sys),
       handleServeHtml dirname a s = (Ret r, s') → success r = true →
       files (world s') !! p = Some (File (ServeHtml.html_content a))
       ∧ expressApp (this s') = Some (TEMP_DIR dirname))
  ∧ (∀ name : string,
       simple_segment name = true → name ≠ "temp" →
       ServeHtml.filename a = Some ("../" +:+ name) →
       p = removelast dirname ++ [name] ∧ ¬ within (TEMP_DIR dirname) p).
Proof.
  intros p. split; [|split].
  - apply handleServeHtml_events.
  - intros r s' Hrun Hok.
    destruct (handleServeHtml_success _ _ _ _ _ Hrun Hok) as (Hthis & Hfiles & _).
    split.
    + rewrite Hfiles. apply lookup_insert_eq.
    + rewrite Hthis. reflexivity.
  - intros name Hname Hne Hfile. subst p. rewrite Hfile.
    change (string_or (Some ("../" +:+ name)) "index.html") with ("../" +:+ name).
    rewrite (path_join_parent dirname name Hname).
    split; [reflexivity|]. apply outside_TEMP_DIR. exact Hne.
Qed.

Lemma serve_html_writes_unchecked_witness :
  let a := Demo.html (Some "../escape.html") None in
  let r := handleServeHtml Demo.dirname a Demo.sys0 in
  files (world (snd r)) !! ["app"; "escape.html"] = Some (File "<h1>x</h1>")
  ∧ ¬ within ["app"; "temp"] ["app"; "escape.html"].
Proof.
  intros a r.
  destruct (serve_html_writes_unchecked Demo.dirname a Demo.sys0)
    as (_ & Hwritten & Hescape).
  assert (Hrun : ∃ q, r = (Ret q, snd r) ∧ success q = true).
  { eexists. split; vm_compute; reflexivity. }
  destruct Hrun as (q & Hrun & Hok).
  split.
  - exact (proj1 (Hwritten q (snd r) Hrun Hok)).
  - refine (proj2 (Hescape "escape.html" eq_refl _ eq_refl)). discriminate.
Defined.

(* ===================================================================== *)
(** ** After a failed bind                                                 *)
(* ===================================================================== *)

(** [listen] stores the new server object before the outcome of the bind is
    known, and nothing resets the field when the error event rejects the
    promise. *)
Lemma listen_promise_failed_bind (port : Z) (root : list string) (s : Sys) :
  expressApp (this s) = Some root →
  valid_port port = true →
  port_taken (world s) port = true →
  ∃ (e : Err) (s' : Sys),
    listen_promise port s = (Throw e, s')
    ∧ expressServer (this s') = Some (fresh (world s))
    ∧ currentHtmlFile (this s') = currentHtmlFile (this s)
    ∧ bound (world s') = bound (world s).
Proof.
  open_sys s. simpl. intros -> Hvalid Htaken.
  unfold listen_promise. unfold_prims. simpl. rewrite Hvalid.
  match goal with
  | |- context [if port_taken ?w port then _ else _] =>
      destruct (port_taken w port) eqn:Hpt
  end.
  - eexists. eexists. split; [reflexivity|]. simpl.
    repeat split. unfold bound. simpl. rewrite !listeners_snoc. reflexivity.
  - exfalso. unfold port_taken, bound in *. simpl in *.
    rewrite listeners_snoc in Hpt. simpl in Hpt. congruence.
Qed.

(** Whenever a [serve_html] call ends on the error event of a bind, the
    reply is a failure and the object holds the server that failed to
    bind and the path of the file it wrote: it is not Idle. *)
Lemma handleServeHtml_bind_error (dirname : list string) (a : ServeHtml.args)
  (s : Sys) (h : nat) (p : Z) :
  let r := handleServeHtml dirname a s in
  last (trace (world (snd r))) = Some (EvListenError h p) →
  trace (world (snd r)) ≠ trace (world s) →
  (∃ q, fst r = Ret q ∧ success q = false)
  ∧ expressServer (this (snd r)) = Some h
  ∧ currentHtmlFile (this (snd r))
    = Some (path_join (TEMP_DIR dirname)
              (string_or (ServeHtml.filename a) "index.html"))
  ∧ ¬ Idle (this (snd r)).
Proof.
  open_sys s. unfold handleServeHtml, stopServer, Idle. unfold_prims. simpl.
  repeat (split_match; simpl);
    rewrite ?last_snoc; intros Hlast Hgrew;
    try discriminate Hlast; try (exfalso; apply Hgrew; reflexivity);
    injection Hlast as <- <-;
    (split; [eexists; split; reflexivity|]);
    (split; [reflexivity|]); (split; [reflexivity|]);
    intros [Hsrv _]; discriminate Hsrv.
Qed.

(** The same for [deploy_zip]. *)
Lemma handleDeployZip_bind_error (env : Env) (dirname : list string)
  (a : DeployZip.args) (s : Sys) (h : nat) (p : Z) :
  let r := handleDeployZip env dirname a s in
  last (trace (world (snd r))) = Some (EvListenError h p) →
  trace (world (snd r)) ≠ trace (world s) →
  (∃ q, fst r = Ret q ∧ success q = false)
  ∧ expressServer (this (snd r)) = Some h
  ∧ ¬ Idle (this (snd r)).
Proof.
  open_sys s. unfold handleDeployZip, stopServer, Idle. unfold_prims. simpl.
  repeat (split_match; simpl);
    rewrite ?last_snoc; intros Hlast Hgrew;
    try discriminate Hlast; try (exfalso; apply Hgrew; reflexivity);
    injection Hlast as <- <-;
    (split; [eexists; split; reflexivity|]);
    (split; [reflexivity|]);
    intros [Hsrv _]; discriminate Hsrv.
Qed.

(** C2, on the code.  [serve_html] on a port another process holds: the
    reply is the failure reply of the bind error and nothing is bound, but
    the object is not Idle: it holds the server object that failed to bind,
    the application and the path of the temp file, and the file stays on
    disk.  A following audit without url then passes the check that no
    server is running and sends the browser to [http://localhost:8080]. *)
Theorem failed_bind_leaves_handle :
  let r := handleServeHtml Demo.dirname (Demo.html None (Some 3000)) Demo.sys0 in
  fst r = Ret (failure_reply
                 (Error "listen EADDRINUSE: address already in use 0.0.0.0:3000"))
  ∧ bound (world (snd r)) = []
  ∧ this (snd r)
    = {| expressApp := Some ["app"; "temp"]; expressServer := Some 0%nat;
         currentPort := 8080;
         currentHtmlFile := Some ["app"; "temp"; "index.html"] |}
  ∧ ¬ Idle (this (snd r))
  ∧ files (world (snd r)) !! ["app"; "temp"; "index.html"] = Some (File "<h1>x</h1>")
  ∧ audited_urls
      (trace (world (snd (handleAuditWithLighthouse Demo.env Demo.no_args (snd r)))))
    = ["http://localhost:8080"].
Proof.
  simpl. repeat split; try (vm_compute; reflexivity).
  intros [H _]. vm_compute in H. discriminate H.
Qed.

(* ===================================================================== *)
(** ** Deploying an archive                                                *)
(* ===================================================================== *)

(** Every deployment that succeeds has run [npm install] and
    [npm run build] and serves the [dist] directory of the extraction
    directory; the handler has no branch that serves the extraction
    directory itself. *)
Lemma handleDeployZip_success (env : Env) (dirname : list string)
  (a : DeployZip.args) (s : Sys) (r : Reply) (s' : Sys) :
  handleDeployZip env dirname a s = (Ret r, s') →
  success r = true →
  let deployDir := path_join (TEMP_DIR dirname)
                     ("deploy-" +:+ string_of_Z (now (world s))) in
  let distPath := path_join (path_join deployDir "") "dist" in
  expressApp (this s') = Some distPath
  ∧ is_dir (files (world s')) distPath = true
  ∧ ∃ seg : list Event,
      trace (world s') = trace (world s) ++ seg
      ∧ In "npm install" (commands seg)
      ∧ In "npm run build" (commands seg)
      ∧ served_roots seg = [distPath].
Proof.
  intros Hrun Hok. open_sys s. simpl in *.
  unfold handleDeployZip, stopServer in Hrun. unfold_prims. simpl in Hrun.
  repeat (split_match; simpl in *; try discriminate);
    injection Hrun as <- <-; try discriminate; simpl;
    (split; [reflexivity|]); (split; [assumption|]);
    (eexists; split; [rewrite <- ?app_assoc; simpl; reflexivity|]);
    simpl; auto 10.
Qed.

(** An archive with a manifest: when the build leaves a [dist] directory
    it is what is served; when the build runs and leaves none the call
    fails and nothing is served. *)
Lemma deploy_zip_with_manifest :
  let built := handleDeployZip (Demo.env_app true) Demo.dirname Demo.zip Demo.sys0 in
  let empty := handleDeployZip (Demo.env_app false) Demo.dirname Demo.zip Demo.sys0 in
  (∃ q, fst built = Ret q ∧ success q = true)
  ∧ bound (world (snd built))
    = [{| l_handle := 0; l_port := 8080; l_root := Demo.deployDir ++ ["dist"] |}]
  ∧ fst empty
    = Ret {| content :=
               JObj [("success", JBool false);
                     ("error",
                      JStr "Build directory not found at /app/temp/deploy-1700000000000/dist");
                     ("stderr", JStr "")];
             isError := true |}
  ∧ commands (trace (world (snd empty)))
    = ["unzip -q /app/temp/deploy-1700000000000/deploy.zip -d /app/temp/deploy-1700000000000";
       "npm install"; "npm run build"]
  ∧ bound (world (snd empty)) = []
  ∧ Idle (this (snd empty)).
Proof.
  simpl. split; [eexists; split; vm_compute; reflexivity|].
  repeat split; vm_compute; reflexivity.
Qed.

(** C3, on the code.  An archive that holds [index.html] and no manifest:
    after the extraction there is no [package.json] at the extraction
    root, and the handler still runs [npm install] and [npm run build];
    the build command fails and so does the call.  No server is started:
    the extraction directory is not served. *)
Theorem deploy_zip_static_site_is_built :
  let r := handleDeployZip Demo.env Demo.dirname Demo.zip Demo.sys0 in
  files (world (snd r)) !! (Demo.deployDir ++ ["package.json"]) = None
  ∧ files (world (snd r)) !! (Demo.deployDir ++ ["index.html"])
    = Some (File "<h1>static</h1>")
  ∧ commands (trace (world (snd r)))
    = ["unzip -q /app/temp/deploy-1700000000000/deploy.zip -d /app/temp/deploy-1700000000000";
       "npm install"; "npm run build"]
  ∧ fst r
    = Ret {| content :=
               JObj [("success", JBool false);
                     ("error", JStr "Command failed: npm run build");
                     ("stderr", JStr "npm error enoent Could not read package.json")];
             isError := true |}
  ∧ served_roots (trace (world (snd r))) = []
  ∧ bound (world (snd r)) = [].
Proof.
  simpl. repeat split; vm_compute; reflexivity.
Qed.

(* ===================================================================== *)
(** ** The browser process                                                 *)
(* ===================================================================== *)

(** The audit handler kills the browser on the line after the audit, with
    no [finally]: when the audit throws, the kill is skipped. *)
Lemma handleAuditWithLighthouse_throw (env : Env) (a : Audit.args) (s : Sys)
  (u : string) (e : Err) :
  Audit.url a = Some u → u ≠ "" →
  chrome_starts env (fresh (world s)) = true →
  lighthouse env u (default default_categories (Audit.categories a)) = LHThrows e →
  let r := handleAuditWithLighthouse env a s in
  fst r = Ret (failure_reply e)
  ∧ browsers (world (snd r)) = fresh (world s) :: browsers (world s)
  ∧ trace (world (snd r))
    = trace (world s)
      ++ [EvChromeLaunch (fresh (world s));
          EvLighthouse u (default default_categories (Audit.categories a))].
Proof.
  intros Hu Hne Hchrome Hthrow. open_sys s. simpl in *.
  unfold handleAuditWithLighthouse. unfold_prims. simpl.
  rewrite Hu. simpl. apply String.eqb_neq in Hne. rewrite Hne. simpl.
  rewrite Hchrome. simpl.
  destruct (Audit.categories a); simpl in *; rewrite Hthrow; simpl;
    rewrite <- app_assoc; auto.
Qed.

(** On every other way out of the audit handler the browser it launched,
    if any, has been killed: a throwing audit is the only leak. *)
Lemma handleAuditWithLighthouse_browser (env : Env) (a : Audit.args) (s : Sys) :
  let s' := snd (handleAuditWithLighthouse env a s) in
  let pid := fresh (world s) in
  ∃ seg : list Event,
    trace (world s') = trace (world s) ++ seg
    ∧ ((seg = [] ∧ browsers (world s') = browsers (world s))
       ∨ (killed seg = [pid]
          ∧ browsers (world s')
            = List.filter (fun p => negb (Nat.eqb p pid)) (browsers (world s)))
       ∨ (∃ (u : string) (e : Err),
            lighthouse env u (default default_categories (Audit.categories a))
            = LHThrows e
            ∧ killed seg = []
            ∧ browsers (world s') = pid :: browsers (world s))).
Proof.
  open_sys s. unfold handleAuditWithLighthouse. unfold_prims. simpl.
  rewrite ?Nat.eqb_refl. simpl.
  repeat (split_match; simpl; rewrite ?Nat.eqb_refl; simpl);
    (eexists; split;
     [first [rewrite <- ?app_assoc; simpl; reflexivity | symmetry; apply app_nil_r]|]);
    simpl; eauto 10.
Qed.

(** The screenshot handler kills the browser in a [finally]: whatever the
    connection and the page do, the process it launched is not alive when
    the handler returns, and the kill is in the history. *)
Lemma handleCaptureScreenshot_kills (env : Env) (a : Screenshot.args) (s : Sys) :
  let s' := snd (handleCaptureScreenshot env a s) in
  let pid := fresh (world s) in
  ∃ seg : list Event,
    trace (world s') = trace (world s) ++ seg
    ∧ ((seg = [] ∧ browsers (world s') = browsers (world s))
       ∨ (In (EvChromeLaunch pid) seg
          ∧ killed seg = [pid]
          ∧ browsers (world s')
            = List.filter (fun p => negb (Nat.eqb p pid)) (browsers (world s)))).
Proof.
  open_sys s. unfold handleCaptureScreenshot. unfold_prims. simpl.
  rewrite ?Nat.eqb_refl. simpl.
  repeat (split_match; simpl; rewrite ?Nat.eqb_refl; simpl);
    (eexists; split;
     [first [rewrite <- ?app_assoc; simpl; reflexivity | symmetry; apply app_nil_r]|]);
    simpl; auto 10.
Qed.

(** C4, on the code.  An audit of a URL the engine rejects by throwing: the
    browser is launched, the audit throws, the handler returns the failure
    reply, and the browser process is still alive: it was never killed.
    The screenshot handler, on a page that times out, does kill its
    browser before it returns. *)
Theorem audit_leaks_browser_on_throw :
  let a := {| Audit.url := Some "not a url"; Audit.categories := None |} in
  let r := handleAuditWithLighthouse Demo.env a Demo.sys0 in
  let b := {| Screenshot.url := "http://10.255.255.1/";
              Screenshot.width := None; Screenshot.height := None |} in
  let r' := handleCaptureScreenshot Demo.env b Demo.sys0 in
  fst r = Ret (failure_reply (Error "INVALID_URL"))
  ∧ trace (world (snd r))
    = [EvChromeLaunch 0;
       EvLighthouse "not a url"
         ["performance"; "accessibility"; "best-practices"; "seo"; "pwa"]]
  ∧ browsers (world (snd r)) = [0%nat]
  ∧ killed (trace (world (snd r))) = []
  ∧ fst r' = Ret (failure_reply (Error "Navigation timeout of 30000 ms exceeded"))
  ∧ killed (trace (world (snd r'))) = [0%nat]
  ∧ browsers (world (snd r')) = [].
Proof.
  simpl. repeat split; vm_compute; reflexivity.
Qed.

(* ===================================================================== *)
(** ** The audited URL                                                     *)
(* ===================================================================== *)

(** An audit changes neither the object nor the listeners nor the files. *)
Lemma handleAuditWithLighthouse_state (env : Env) (a : Audit.args) (s : Sys) :
  let s' := snd (handleAuditWithLighthouse env a s) in
  this s' = this s
  ∧ bound (world s') = bound (world s)
  ∧ files (world s') = files (world s).
Proof.
  open_sys s. unfold handleAuditWithLighthouse. unfold_prims. simpl.
  repeat (split_match; simpl);
    repeat split; unfold bound; simpl; rewrite ?listeners_snoc; reflexivity.
Qed.

(** With the url omitted and a handle recorded, the audited URL is made of
    the current port alone; [currentHtmlFile] is not read. *)
Lemma handleAuditWithLighthouse_default_url (env : Env) (a : Audit.args) (s : Sys)
  (h : nat) :
  url_missing (Audit.url a) = true →
  expressServer (this s) = Some h →
  chrome_starts env (fresh (world s)) = true →
  ∃ seg : list Event,
    trace (world (snd (handleAuditWithLighthouse env a s))) = trace (world s) ++ seg
    ∧ audited_urls seg = ["http://localhost:" +:+ string_of_Z (currentPort (this s))].
Proof.
  intros Hurl Hsrv Hchrome. open_sys s. simpl in *. subst srv.
  unfold handleAuditWithLighthouse. unfold_prims. simpl.
  rewrite Hurl. simpl. rewrite Hchrome. simpl.
  repeat (split_match; simpl);
    (eexists; split; [rewrite <- ?app_assoc; simpl; reflexivity|]); reflexivity.
Qed.

(** C5, on the code.  After [serve_html] with the file name [a.html], an
    audit without url is run on [http://localhost:8080]: the url is made of
    the port, and the file name of the served file is not in it.  The
    audit leaves the object as it was. *)
Theorem audit_url_omits_filename :
  let s1 := snd (handleServeHtml Demo.dirname (Demo.html (Some "a.html") None)
                   Demo.sys0) in
  let r := handleAuditWithLighthouse Demo.env Demo.no_args s1 in
  currentHtmlFile (this s1) = Some ["app"; "temp"; "a.html"]
  ∧ bound (world s1)
    = [{| l_handle := 0; l_port := 8080; l_root := ["app"; "temp"] |}]
  ∧ audited_urls (trace (world (snd r))) = ["http://localhost:8080"]
  ∧ (∃ audit, field "audit" (content
                 match fst r with Ret q => q | Throw e => failure_reply e end)
              = Some audit
              ∧ field "url" audit = Some (JStr "http://localhost:8080"))
  ∧ this (snd r) = this s1.
Proof.
  simpl. repeat split; try (vm_compute; reflexivity).
  eexists. split; vm_compute; reflexivity.
Qed.

(* ===================================================================== *)
(** ** Scores: rounding in binary64                                        *)
(* ===================================================================== *)

Lemma digits2_bounds (p : positive) :
  2 ^ (Z.pos (digits2_pos p) - 1) <= Z.pos p < 2 ^ Z.pos (digits2_pos p).
Proof.
  induction p as [p IH|p IH|]; simpl digits2_pos.
  - rewrite Pos2Z.inj_succ. replace (Z.succ (Z.pos (digits2_pos p)) - 1)
      with (Z.succ (Z.pos (digits2_pos p) - 1)) by lia.
    rewrite !Z.pow_succ_r by lia. lia.
  - rewrite Pos2Z.inj_succ. replace (Z.succ (Z.pos (digits2_pos p)) - 1)
      with (Z.succ (Z.pos (digits2_pos p) - 1)) by lia.
    rewrite !Z.pow_succ_r by lia. lia.
  - simpl. lia.
Qed.

Lemma digits2_le (p : positive) (k : Z) :
  0 <= k -> Z.pos p < 2 ^ k -> Z.pos (digits2_pos p) <= k.
Proof.
  intros Hk Hp. destruct (digits2_bounds p) as [Hlo _].
  destruct (Z.le_gt_cases (Z.pos (digits2_pos p)) k) as [H|H]; [exact H|].
  exfalso. assert (2 ^ k <= 2 ^ (Z.pos (digits2_pos p) - 1)).
  { apply Z.pow_le_mono_r; lia. }
  lia.
Qed.

Lemma shr_1_m (x : shr_record) :
  0 <= shr_m x -> shr_m (shr_1 x) = shr_m x / 2.
Proof.
  destruct x as [m r s]. simpl. intros Hm.
  rewrite <- Z.div2_div.
  destruct m as [|[p|p|]|p]; simpl; try reflexivity. lia.
Qed.

Lemma shr_1_exact (x : shr_record) :
  0 <= shr_m x -> shr_m x mod 2 = 0 -> shr_r x = false -> shr_s x = false ->
  shr_r (shr_1 x) = false /\ shr_s (shr_1 x) = false.
Proof.
  destruct x as [m r s]. simpl. intros Hm Hmod -> ->.
  rewrite Zmod_even in Hmod.
  destruct m as [|[p|p|]|p]; simpl in *; try discriminate; try lia; auto.
Qed.

Lemma shifted_1 (x : shr_record) : 0 <= shr_m x -> shifted 1 x (shr_1 x).
Proof.
  intros Hm. unfold shifted. rewrite Z.pow_1_r, (shr_1_m x Hm).
  split; [apply Z.div_pos; lia|]. split; [reflexivity|].
  apply shr_1_exact. exact Hm.
Qed.

Lemma shifted_trans (a b : Z) (x y z : shr_record) :
  0 < a -> 0 < b -> 0 <= shr_m x ->
  shifted a x y -> shifted b y z -> shifted (a + b) x z.
Proof.
  intros Ha Hb Hx (Hy0 & Hy & Hye) (Hz0 & Hz & Hze).
  assert (Hpa : 0 < 2 ^ a) by (apply Z.pow_pos_nonneg; lia).
  assert (Hpb : 0 < 2 ^ b) by (apply Z.pow_pos_nonneg; lia).
  split; [exact Hz0|]. split.
  - rewrite Hz, Hy, Z.pow_add_r by lia. rewrite Z.div_div by lia. reflexivity.
  - intros Hmod Hr Hs. rewrite Z.pow_add_r in Hmod by lia.
    assert (Hdiv : (2 ^ a * 2 ^ b | shr_m x)) by (apply Z.mod_divide; lia).
    destruct Hdiv as [q Hq].
    assert (Hxa : shr_m x mod 2 ^ a = 0).
    { apply Z.mod_divide; [lia|]. exists (q * 2 ^ b). lia. }
    destruct (Hye Hxa Hr Hs) as [Hyr Hys].
    apply Hze; [|exact Hyr|exact Hys].
    rewrite Hy. apply Z.mod_divide; [lia|]. exists q.
    rewrite Hq. replace (q * (2 ^ a * 2 ^ b)) with (q * 2 ^ b * 2 ^ a) by lia.
    apply Z.div_mul. lia.
Qed.

Lemma iter_pos_shifted (p : positive) :
  forall x : shr_record, 0 <= shr_m x -> shifted (Z.pos p) x (SpecFloat.iter_pos shr_1 p x).
Proof.
  induction p as [p IH|p IH|]; intros x Hx; simpl SpecFloat.iter_pos.
  - pose proof (shifted_1 x Hx) as H1.
    assert (H1' := H1). destruct H1' as (Hx1 & _).
    pose proof (IH _ Hx1) as H2. assert (H2' := H2). destruct H2' as (Hx2 & _).
    pose proof (IH _ Hx2) as H3.
    replace (Z.pos p~1) with (1 + (Z.pos p + Z.pos p)) by lia.
    apply (shifted_trans 1 (Z.pos p + Z.pos p) x (shr_1 x)); try lia; [exact H1|].
    apply (shifted_trans (Z.pos p) (Z.pos p) (shr_1 x)
             (SpecFloat.iter_pos shr_1 p (shr_1 x))); try lia; [exact H2|exact H3].
  - pose proof (IH _ Hx) as H2. assert (H2' := H2). destruct H2' as (Hx2 & _).
    pose proof (IH _ Hx2) as H3.
    replace (Z.pos p~0) with (Z.pos p + Z.pos p) by lia.
    apply (shifted_trans (Z.pos p) (Z.pos p) x (SpecFloat.iter_pos shr_1 p x));
      try lia; [exact H2|exact H3].
  - apply shifted_1. exact Hx.
Qed.

Lemma Zdigits2_le (M k : Z) : 0 <= M -> 0 <= k -> M < 2 ^ k -> Zdigits2 M <= k.
Proof.
  intros HM Hk Hlt. destruct M as [|p|p]; simpl; [lia| |lia].
  apply digits2_le; assumption.
Qed.

(** One rounding shift of [binary_round_aux], from an exact location. *)
Lemma shr_fexp_exact (M E : Z) :
  0 <= M ->
  let r := shr_fexp prec64 emax64 M E loc_Exact in
  let n := snd r - E in
  snd r = Z.max E (fexp prec64 emax64 (Zdigits2 M + E))
  /\ 0 <= n
  /\ 0 <= shr_m (fst r)
  /\ shr_m (fst r) = M / 2 ^ n
  /\ (M mod 2 ^ n = 0 -> loc_of_shr_record (fst r) = loc_Exact).
Proof.
  intros HM. unfold shr_fexp, shr. simpl shr_record_of_loc.
  destruct (fexp prec64 emax64 (Zdigits2 M + E) - E) as [|p|p] eqn:Hn; simpl fst; simpl snd.
  - replace (E - E) with 0 by lia. rewrite Z.pow_0_r, Z.div_1_r. simpl.
    repeat split; auto; lia.
  - replace (E + Z.pos p - E) with (Z.pos p) by lia.
    destruct (iter_pos_shifted p {| shr_m := M; shr_r := false; shr_s := false |} HM)
      as (H0 & Hm & Hex). simpl in Hm, Hex.
    repeat split; auto; try lia.
    intros Hmod. destruct (Hex Hmod eq_refl eq_refl) as [Hr Hs].
    destruct (SpecFloat.iter_pos shr_1 p _) as [m' r' s']. simpl in *. subst. reflexivity.
  - replace (E - E) with 0 by lia. rewrite Z.pow_0_r, Z.div_1_r. simpl.
    repeat split; auto; lia.
Qed.

Lemma fexp_small (d : Z) : d <= 7 -> fexp prec64 emax64 d <= -46.
Proof. unfold fexp, emin, prec64, emax64. lia. Qed.

Lemma pow2_split (a b : Z) : 0 <= b <= a -> 2 ^ a = 2 ^ (a - b) * 2 ^ b.
Proof. intros H. rewrite <- Z.pow_add_r by lia. f_equal. lia. Qed.

(** Rounding a value that is at most 100 = 25 * 2^2 gives at most 100. *)
Lemma binary_round_aux_le_100 (M E : Z) :
  0 <= M -> E <= -46 -> M <= 25 * 2 ^ (2 - E) ->
  binary_round_aux prec64 emax64 false M E loc_Exact = S754_zero false
  \/ exists (m : positive) (e : Z),
       binary_round_aux prec64 emax64 false M E loc_Exact = S754_finite false m e
       /\ e <= -46 /\ Z.pos m <= 25 * 2 ^ (2 - e).
Proof.
  intros HM HE Hle. unfold binary_round_aux.
  pose proof (shr_fexp_exact M E HM) as H1.
  destruct (shr_fexp prec64 emax64 M E loc_Exact) as [mrs1 e1]. simpl in H1.
  destruct H1 as (He1 & Hn1 & Hm1pos & Hm1 & Hex1).
  assert (Hp1 : 0 < 2 ^ (e1 - E)) by (apply Z.pow_pos_nonneg; lia).
  assert (HMlt : M < 2 ^ (7 - E)).
  { rewrite (pow2_split (7 - E) (2 - E)) by lia. replace (7 - E - (2 - E)) with 5 by lia.
    assert (0 < 2 ^ (2 - E)) by (apply Z.pow_pos_nonneg; lia). change (2 ^ 5) with 32. lia. }
  assert (He1le : e1 <= -46).
  { rewrite He1. apply Z.max_lub; [exact HE|]. apply fexp_small.
    assert (Zdigits2 M <= 7 - E) by (apply Zdigits2_le; lia). lia. }
  (* the shifted mantissa is below the shifted bound, and rounding keeps it there *)
  assert (Hsplit : 25 * 2 ^ (2 - E) = 25 * 2 ^ (2 - e1) * 2 ^ (e1 - E)).
  { rewrite (pow2_split (2 - E) (e1 - E)) by lia.
    replace (2 - E - (e1 - E)) with (2 - e1) by lia. lia. }
  assert (Hm1le : shr_m mrs1 <= 25 * 2 ^ (2 - e1)).
  { rewrite Hm1. apply Z.div_le_upper_bound; [lia|]. lia. }
  set (m2 := round_nearest_even (shr_m mrs1) (loc_of_shr_record mrs1)).
  assert (Hm2 : 0 <= m2 <= 25 * 2 ^ (2 - e1)).
  { assert (Hrne : forall l, shr_m mrs1 <= round_nearest_even (shr_m mrs1) l <= shr_m mrs1 + 1).
    { intros [|[]]; simpl; try lia. destruct (Z.even (shr_m mrs1)); lia. }
    destruct (Z.eq_dec (shr_m mrs1) (25 * 2 ^ (2 - e1))) as [Heq|Hne].
    - assert (Hexact : M mod 2 ^ (e1 - E) = 0).
      { assert (HMeq : M = 25 * 2 ^ (2 - e1) * 2 ^ (e1 - E)).
        { pose proof (Z.mul_div_le M (2 ^ (e1 - E)) Hp1) as Hfloor.
          rewrite <- Hm1, Heq in Hfloor. lia. }
        rewrite HMeq. apply Z.mod_mul. lia. }
      unfold m2. rewrite (Hex1 Hexact). simpl. lia.
    - specialize (Hrne (loc_of_shr_record mrs1)). unfold m2. lia. }
  clearbody m2.
  pose proof (shr_fexp_exact m2 e1 (proj1 Hm2)) as H2.
  destruct (shr_fexp prec64 emax64 m2 e1 loc_Exact) as [mrs2 e2]. simpl in H2.
  destruct H2 as (He2 & Hn2 & Hm3pos & Hm3 & _).
  assert (Hp2 : 0 < 2 ^ (e2 - e1)) by (apply Z.pow_pos_nonneg; lia).
  assert (Hm2lt : m2 < 2 ^ (7 - e1)).
  { rewrite (pow2_split (7 - e1) (2 - e1)) by lia. replace (7 - e1 - (2 - e1)) with 5 by lia.
    assert (0 < 2 ^ (2 - e1)) by (apply Z.pow_pos_nonneg; lia). change (2 ^ 5) with 32. lia. }
  assert (He2le : e2 <= -46).
  { rewrite He2. apply Z.max_lub; [exact He1le|]. apply fexp_small.
    assert (Zdigits2 m2 <= 7 - e1) by (apply Zdigits2_le; lia). lia. }
  assert (Hm3le : shr_m mrs2 <= 25 * 2 ^ (2 - e2)).
  { rewrite Hm3. apply Z.div_le_upper_bound; [lia|].
    rewrite (pow2_split (2 - e1) (e2 - e1)) in Hm2 by lia.
    replace (2 - e1 - (e2 - e1)) with (2 - e2) in Hm2 by lia. lia. }
  destruct (shr_m mrs2) as [|m3|m3]; [left; reflexivity| |lia].
  right. exists m3, e2.
  assert (Hfin : (e2 <=? emax64 - prec64) = true).
  { apply Z.leb_le. unfold emax64, prec64. lia. }
  rewrite Hfin. auto.
Qed.

Lemma number_100_eq : number_100 = S754_finite false 7036874417766400 (-46).
Proof. vm_compute. reflexivity. Qed.

Lemma number_one_eq : number_one = S754_finite false 4503599627370496 (-52).
Proof. vm_compute. reflexivity. Qed.

Lemma number_zero_eq : number_of_Z 0 = S754_zero false.
Proof. reflexivity. Qed.

(** A valid double between 0 and 1 that is not a zero: its sign, exponent
    and mantissa. *)
Lemma unit_interval_finite (s : bool) (m : positive) (e : Z) :
  valid_binary prec64 emax64 (S754_finite s m e) = true ->
  SFleb (number_of_Z 0) (S754_finite s m e) = true ->
  SFleb (S754_finite s m e) number_one = true ->
  s = false /\ e <= -52 /\ Z.pos m <= 2 ^ (- e).
Proof.
  intros Hvalid H0 H1. rewrite number_zero_eq in H0. rewrite number_one_eq in H1.
  unfold SFleb, SFcompare in H0, H1.
  destruct s; [discriminate H0|]. split; [reflexivity|].
  unfold valid_binary, bounded, canonical_mantissa in Hvalid.
  apply andb_prop in Hvalid as [Hcanon _]. apply Z.eqb_eq in Hcanon.
  destruct (digits2_bounds m) as [_ Hup].
  assert (Hd : Z.pos (digits2_pos m) <= 53).
  { unfold fexp, emin, prec64, emax64 in Hcanon. lia. }
  assert (Hm53 : Z.pos m < 2 ^ 53).
  { eapply Z.lt_le_trans; [exact Hup|]. apply Z.pow_le_mono_r; lia. }
  destruct (e ?= -52) eqn:Hcmp.
  - apply Z.compare_eq in Hcmp. subst e. split; [lia|].
    assert (Hpow : 2 ^ (- -52) = 4503599627370496) by reflexivity.
    rewrite Hpow.
    destruct (Pos.compare_cont Eq m 4503599627370496) eqn:Hc; try discriminate H1.
    + apply Pos.compare_eq in Hc. subst m. lia.
    + apply -> Pos.compare_lt_iff in Hc. apply Pos2Z.pos_lt_pos in Hc. lia.
  - apply -> Z.compare_lt_iff in Hcmp. split; [lia|].
    assert (2 ^ 53 <= 2 ^ (- e)) by (apply Z.pow_le_mono_r; lia). lia.
  - discriminate H1.
Qed.

Lemma Math_round_le_100 (m : positive) (e : Z) :
  e <= -46 -> Z.pos m <= 25 * 2 ^ (2 - e) ->
  exists k : Z, 0 <= k <= 100 /\ Math_round (S754_finite false m e) = number_of_Z k.
Proof.
  intros He Hm. unfold Math_round.
  assert (Hneg : (0 <=? e) = false) by (apply Z.leb_gt; lia).
  rewrite Hneg.
  exists ((2 * Z.pos m + 2 ^ (- e)) / 2 ^ (1 - e)). split; [|reflexivity].
  assert (Hq : 0 < 2 ^ (- e)) by (apply Z.pow_pos_nonneg; lia).
  assert (H1 : 2 ^ (1 - e) = 2 * 2 ^ (- e)).
  { replace (1 - e) with (Z.succ (- e)) by lia. apply Z.pow_succ_r. lia. }
  assert (H2 : 2 ^ (2 - e) = 4 * 2 ^ (- e)).
  { replace (2 - e) with (Z.succ (Z.succ (- e))) by lia.
    rewrite !Z.pow_succ_r by lia. lia. }
  rewrite H1. rewrite H2 in Hm. split.
  - apply Z.div_pos; lia.
  - assert ((2 * Z.pos m + 2 ^ (- e)) / (2 * 2 ^ (- e)) < 101); [|lia].
    apply Z.div_lt_upper_bound; lia.
Qed.

Lemma category_score_unit_interval (x : spec_float) :
  score_normalized (Some x) (category_score (Some x)).
Proof.
  intros Hvalid H0 H1. destruct x as [s|s| |s m e].
  - exists 0. simpl. repeat split; try lia; try discriminate.
  - exfalso. rewrite number_zero_eq in H0. rewrite number_one_eq in H1.
    destruct s; [discriminate H0|discriminate H1].
  - discriminate H0.
  - destruct (unit_interval_finite s m e Hvalid H0 H1) as (-> & He & Hm).
    unfold category_score. simpl number_truthy. cbv iota.
    unfold number_mul. rewrite number_100_eq. unfold SFmul. simpl xorb.
    assert (Hle : Z.pos (m * 7036874417766400) <= 25 * 2 ^ (2 - (e + -46))).
    { rewrite Pos2Z.inj_mul.
      replace (2 - (e + -46)) with (48 + - e) by lia.
      rewrite Z.pow_add_r by lia. change (2 ^ 48) with 281474976710656. lia. }
    destruct (binary_round_aux_le_100 (Z.pos (m * 7036874417766400)) (e + -46))
      as [Hz|(m3 & e3 & Hf & He3 & Hm3)]; [lia|lia|exact Hle| |].
    + rewrite Hz. exists 0. simpl. repeat split; try lia; try discriminate.
    + rewrite Hf. destruct (Math_round_le_100 m3 e3 He3 Hm3) as (k & Hk & Hr).
      exists k. rewrite Hr. repeat split; try lia; try discriminate.
Qed.

Lemma category_score_normalized (native : option spec_float) :
  score_normalized native (category_score native).
Proof.
  destruct native as [x|]; [apply category_score_unit_interval|reflexivity].
Qed.

Lemma assoc_collect_scores (c : string) (cats : list (string * LH.category)) :
  assoc c (collect_scores cats)
  = option_map
      (λ d, JObj [("score", JNum (category_score (LH.score d)));
                  ("title", JStr (LH.title d))])
      (assoc c cats).
Proof.
  induction cats as [|[c' d] cats IH]; simpl; [reflexivity|].
  destruct (String.eqb c c'); [reflexivity|exact IH].
Qed.

(** A successful audit reply carries the scores collected from the report
    the engine returned. *)
Lemma handleAuditWithLighthouse_success (env : Env) (a : Audit.args) (s : Sys)
  (r : Reply) (s' : Sys) :
  handleAuditWithLighthouse env a s = (Ret r, s') →
  success r = true →
  ∃ (u : string) (report : LH.lhr) (audit : JSON),
    lighthouse env u (default default_categories (Audit.categories a))
    = LHResult report
    ∧ field "audit" (content r) = Some audit
    ∧ field "url" audit = Some (JStr u)
    ∧ field "scores" audit = Some (JObj (collect_scores (LH.categories report))).
Proof.
  intros Hrun Hok. open_sys s.
  unfold handleAuditWithLighthouse in Hrun. unfold_prims. simpl in Hrun.
  rewrite ?Nat.eqb_refl in Hrun. simpl in Hrun.
  repeat (split_match; simpl in *; rewrite ?Nat.eqb_refl in *; simpl in *;
          try discriminate);
    injection Hrun as <- <-; try discriminate Hok;
    (eexists; eexists; eexists; split; [eassumption|]);
    simpl; auto.
Qed.

(** C9.  In the reply of an audit that produced a result, the scores
    mapping is collected from the categories of the engine's report, and
    the entry of each category holds the normalized score of that category:
    zero when the engine reports no score; for a native score that is a
    double between 0 and 1, an integer between 0 and 100, which is
    [Math.round] of the (binary64) product of the score by 100 when the
    score is not a zero, and 0 when it is. *)
Theorem audit_scores_normalized (env : Env) (a : Audit.args) (s : Sys)
  (r : Reply) (s' : Sys)
  (Hrun : handleAuditWithLighthouse env a s = (Ret r, s'))
  (Hok : success r = true) :
  ∃ (u : string) (report : LH.lhr) (audit : JSON),
    lighthouse env u (default default_categories (Audit.categories a))
    = LHResult report
    ∧ field "audit" (content r) = Some audit
    ∧ field "scores" audit = Some (JObj (collect_scores (LH.categories report)))
    ∧ ∀ (c : string) (d : LH.category),
        assoc c (LH.categories report) = Some d →
        ∃ out : spec_float,
          assoc c (collect_scores (LH.categories report))
          = Some (JObj [("score", JNum out); ("title", JStr (LH.title d))])
          ∧ score_normalized (LH.score d) out.
Proof.
  destruct (handleAuditWithLighthouse_success env a s r s' Hrun Hok)
    as (u & report & audit & Hlh & Haudit & _ & Hscores).
  exists u, report, audit. repeat split; try assumption.
  intros c d Hc. exists (category_score (LH.score d)). split.
  - rewrite assoc_collect_scores, Hc. reflexivity.
  - apply category_score_normalized.
Qed.

Lemma audit_scores_normalized_witness :
  let a := {| Audit.url := Some "http://localhost:8080/index.html";
              Audit.categories := None |} in
  ∃ (scores : list (string * JSON)) (out : spec_float),
    assoc "performance" scores
    = Some (JObj [("score", JNum out); ("title", JStr "Performance")])
    ∧ score_normalized (Some Demo.score_057) out
    ∧ out = number_of_Z 57
    ∧ assoc "seo" scores
      = Some (JObj [("score", JNum (number_of_Z 0)); ("title", JStr "SEO")]).
Proof.
  intros a.
  pose (run := handleAuditWithLighthouse Demo.env a Demo.sys0).
  assert (Hrun : ∃ q, run = (Ret q, snd run) ∧ success q = true).
  { eexists. split; vm_compute; reflexivity. }
  destruct Hrun as (q & Hrun & Hok).
  destruct (audit_scores_normalized Demo.env a Demo.sys0 q (snd run) Hrun Hok)
    as (u & report & audit & Hlh & _ & _ & Hentries).
  assert (Hreport : report
                    = {| LH.fetchTime := "2025-01-01T00:00:00.000Z";
                         LH.categories :=
                           [("performance",
                             {| LH.score := Some Demo.score_057;
                                LH.title := "Performance" |});
                            ("seo", {| LH.score := None; LH.title := "SEO" |})];
                         LH.audits := [] |}).
  { simpl in Hlh. destruct (String.prefix "http" u); congruence. }
  subst report.
  destruct (Hentries "performance"
              {| LH.score := Some Demo.score_057; LH.title := "Performance" |} eq_refl)
    as (out & Hout & Hnorm).
  exists (collect_scores
            [("performance",
              {| LH.score := Some Demo.score_057; LH.title := "Performance" |});
             ("seo", {| LH.score := None; LH.title := "SEO" |})]), out.
  split; [exact Hout|]. split; [exact Hnorm|]. split.
  - vm_compute in Hout. injection Hout as <-. vm_compute. reflexivity.
  - vm_compute. reflexivity.
Defined.

(** Case analysis on the innermost scrutinee of one hypothesis. *)
Ltac split_match_in H :=
  match type of H with
  | context [match ?x with _ => _ end] =>
      lazymatch x with
      | context [match _ with _ => _ end] => fail
      | _ => destruct x eqn:?
      end
  end.

(* ===================================================================== *)
(** ** More on stopping and on setting up                                  *)
(* ===================================================================== *)



(** X2.  After [serve_html] a server is bound exactly when the reply is a
    success: then the one listener is the server object the call made, on
    the requested or default port, serving the temp directory; after a
    failure nothing is bound, not even the server that was running before
    the call. *)
Theorem serve_html_bound_iff_success (dirname : list string) (a : ServeHtml.args)
  (s : Sys) (r : Reply) (s' : Sys) :
  Consistent s →
  handleServeHtml dirname a s = (Ret r, s') →
  bound (world s')
  = if success r
    then [listener_of (world s) (ServeHtml.port a) (TEMP_DIR dirname)]
    else [].
Proof.
  intros Hc Hrun.
  destruct (consistent_cases s Hc) as [Hb|(l0 & Hb & Hsrv)];
    destruct Hc as [Hone _];
    open_sys s; unfold bound in Hb; simpl in *; try subst srv;
    unfold handleServeHtml, stopServer in Hrun; unfold_prims; simpl in Hrun;
    repeat (split_match_in Hrun; simpl in Hrun; try discriminate Hrun);
    injection Hrun as <- <-; unfold success, failure_reply, listener_of; simpl;
    bound_now Hb; reflexivity.
Qed.

Lemma serve_html_bound_iff_success_witness :
  let s1 := snd (handleServeHtml Demo.dirname (Demo.html None None) Demo.sys0) in
  let r := handleServeHtml Demo.dirname (Demo.html None (Some 3000)) s1 in
  bound (world s1) ≠ [] ∧ bound (world (snd r)) = [].
Proof.
  intros s1 r. split; [vm_compute; discriminate|].
  assert (Hc : Consistent s1).
  { replace s1 with (snd (handle Demo.env Demo.dirname
                            (serve_html (Demo.html None None)) Demo.sys0))
      by reflexivity.
    apply handle_consistent. apply consistent_fresh_start. reflexivity. }
  assert (Hrun : ∃ q, r = (Ret q, snd r) ∧ success q = false).
  { eexists. split; vm_compute; reflexivity. }
  destruct Hrun as (q & Hrun & Hq).
  pose proof (serve_html_bound_iff_success Demo.dirname _ s1 q (snd r) Hc Hrun) as H.
  rewrite Hq in H. exact H.
Defined.

(** X3.  After [deploy_zip] a server is bound exactly when the reply is a
    success: then the one listener is the server object the call made, on
    the requested or default port, serving the [dist] directory of the
    extraction directory; after a failure nothing is bound, not even the
    server that was running before the call. *)
Theorem deploy_zip_bound_iff_success (env : Env) (dirname : list string)
  (a : DeployZip.args) (s : Sys) (r : Reply) (s' : Sys) :
  Consistent s →
  handleDeployZip env dirname a s = (Ret r, s') →
  bound (world s')
  = if success r
    then [listener_of (world s) (DeployZip.port a) (distPath_of dirname (world s))]
    else [].
Proof.
  intros Hc Hrun.
  destruct (consistent_cases s Hc) as [Hb|(l0 & Hb & Hsrv)];
    destruct Hc as [Hone _];
    open_sys s; unfold bound in Hb; simpl in *; try subst srv;
    unfold handleDeployZip, stopServer in Hrun; unfold_prims; simpl in Hrun;
    repeat (split_match_in Hrun; simpl in Hrun; try discriminate Hrun);
    injection Hrun as <- <-; unfold success, failure_reply, listener_of; simpl;
    bound_now Hb; reflexivity.
Qed.

Lemma deploy_zip_bound_iff_success_witness :
  let r := handleDeployZip (Demo.env_app true) Demo.dirname Demo.zip Demo.sys0 in
  let r' := handleDeployZip (Demo.env_app false) Demo.dirname Demo.zip Demo.sys0 in
  bound (world (snd r))
  = [{| l_handle := 0%nat; l_port := 8080; l_root := Demo.deployDir ++ ["dist"] |}]
  ∧ bound (world (snd r')) = [].
Proof.
  intros r r'.
  assert (Hc : Consistent Demo.sys0) by (apply consistent_fresh_start; reflexivity).
  assert (Hrun : ∃ q, r = (Ret q, snd r) ∧ success q = true).
  { eexists. split; vm_compute; reflexivity. }
  assert (Hrun' : ∃ q, r' = (Ret q, snd r') ∧ success q = false).
  { eexists. split; vm_compute; reflexivity. }
  destruct Hrun as (q & Hrun & Hq). destruct Hrun' as (q' & Hrun' & Hq').
  pose proof (deploy_zip_bound_iff_success (Demo.env_app true) Demo.dirname Demo.zip
                Demo.sys0 q (snd r) Hc Hrun) as H.
  pose proof (deploy_zip_bound_iff_success (Demo.env_app false) Demo.dirname Demo.zip
                Demo.sys0 q' (snd r') Hc Hrun') as H'.
  rewrite Hq in H. rewrite Hq' in H'. split; [|exact H'].
  rewrite H. vm_compute. reflexivity.
Defined.

(** X4.  Every call starts at most one server, and only on the requested
    port or, when none or 0 is given, on 8080: [listen] is never called
    with port 0, and a [serve_html] with port 0 and an empty file name is
    the call with neither. *)
Theorem listen_on_requested_port (env : Env) (dirname : list string) (c : Call)
  (s : Sys) :
  (∃ seg : list Event,
     trace (world (snd (handle env dirname c s))) = trace (world s) ++ seg
     ∧ (listen_ports seg = []
        ∨ (is_setup c = true
           ∧ listen_ports seg = [number_or (port_of c) DEFAULT_PORT])))
  ∧ number_or (port_of c) DEFAULT_PORT ≠ 0
  ∧ (∀ html : string,
       handleServeHtml dirname
         {| ServeHtml.html_content := html; ServeHtml.filename := Some "";
            ServeHtml.port := Some 0 |} s
       = handleServeHtml dirname
           {| ServeHtml.html_content := html; ServeHtml.filename := None;
              ServeHtml.port := None |} s).
Proof.
  split; [|split].
  - open_sys s. destruct c as [a|a|a| |a]; simpl;
      unfold handleDeployZip, handleServeHtml, handleAuditWithLighthouse,
        handleStopServer, handleCaptureScreenshot, stopServer; unfold_prims; simpl;
      rewrite ?Nat.eqb_refl; simpl;
      repeat (split_match; simpl; rewrite ?Nat.eqb_refl; simpl);
      (eexists; split;
       [first [rewrite <- ?app_assoc; simpl; reflexivity | symmetry; apply app_nil_r]|]);
      simpl; auto.
  - unfold number_or, DEFAULT_PORT. destruct (port_of c) as [v|]; [|lia].
    destruct (v =? 0) eqn:Hv; [lia|]. apply Z.eqb_neq. exact Hv.
  - intros html. reflexivity.
Qed.

(** *** A port [listen] refuses *)

(** X5.  [serve_html] with a port outside 0..65535: [listen] throws before
    the server object is stored, so the reply is a failure, no handle is
    recorded, no server is started and nothing is bound.  When the reply
    carries the port error the HTML file has been written before: it is on
    disk and recorded in [currentHtmlFile], and the object is not Idle
    although no server runs. *)
Theorem serve_html_bad_port (dirname : list string) (a : ServeHtml.args) (s : Sys) :
  valid_port (number_or (ServeHtml.port a) DEFAULT_PORT) = false →
  let r := handleServeHtml dirname a s in
  let p := path_join (TEMP_DIR dirname)
             (string_or (ServeHtml.filename a) "index.html") in
  (∃ q, fst r = Ret q ∧ success q = false)
  ∧ expressServer (this (snd r)) = None
  ∧ (∃ seg, trace (world (snd r)) = trace (world s) ++ seg ∧ listen_ports seg = [])
  ∧ (Consistent s → bound (world (snd r)) = [])
  ∧ (fst r = Ret (failure_reply
                    (bad_port_error (number_or (ServeHtml.port a) DEFAULT_PORT))) →
     files (world (snd r)) !! p = Some (File (ServeHtml.html_content a))
     ∧ currentHtmlFile (this (snd r)) = Some p
     ∧ ¬ Idle (this (snd r))).
Proof.
  intros Hport. simpl.
  assert (Hb : Consistent s → listeners (trace (world s)) = []
                              ∨ ∃ l0, listeners (trace (world s)) = [l0]
                                      ∧ expressServer (this s) = Some (l_handle l0)).
  { intros Hc. exact (consistent_cases s Hc). }
  open_sys s. simpl in Hb.
  unfold handleServeHtml, stopServer, Idle, bad_port_error. unfold_prims. simpl.
  rewrite Hport.
  repeat (split_match; simpl);
    (split; [eexists; split; reflexivity|]);
    (split; [reflexivity|]);
    (split; [eexists; split; [rewrite <- ?app_assoc; simpl; reflexivity|reflexivity]|]);
    (split;
     [intros Hc; destruct (Hb Hc) as [Hl|(l0 & Hl & Hs)];
      try discriminate Hs; try (injection Hs as ->);
      bound_now Hl; reflexivity|]);
    intros Hq;
    try (exfalso; injection Hq as Hq; cbv [String.append] in Hq; discriminate Hq);
    match goal with H : fs_writeFile _ _ _ = Some _ |- _ =>
      apply fs_writeFile_Some in H; subst end;
    (split; [apply lookup_insert_eq|]); (split; [reflexivity|]);
    intros [_ Hf]; discriminate Hf.
Qed.

Lemma serve_html_bad_port_witness :
  let r := handleServeHtml Demo.dirname (Demo.html None (Some 70000)) Demo.sys0 in
  expressServer (this (snd r)) = None
  ∧ currentHtmlFile (this (snd r)) = Some ["app"; "temp"; "index.html"].
Proof.
  intros r.
  destruct (serve_html_bad_port Demo.dirname (Demo.html None (Some 70000)) Demo.sys0
              eq_refl) as (_ & Hsrv & _ & _ & Hfile).
  split; [exact Hsrv|].
  assert (Hq : fst r = Ret (failure_reply (bad_port_error 70000))).
  { vm_compute. reflexivity. }
  exact (proj1 (proj2 (Hfile Hq))).
Defined.

(** *** Serving again *)

Lemma removelast_ne {A} (l : list A) : l ≠ [] → removelast l ≠ l.
Proof.
  intros Hne Heq. destruct l as [|a l]; [congruence|].
  pose proof (app_removelast_last a Hne) as H. rewrite Heq in H.
  apply (f_equal (@length A)) in H. rewrite length_app in H. simpl in H. lia.
Qed.

Lemma port_taken_same (w w' : World) (p : Z) :
  foreign_ports w' = foreign_ports w →
  listeners (trace w') = listeners (trace w) →
  port_taken w' p = port_taken w p.
Proof. unfold port_taken, bound. intros -> ->. reflexivity. Qed.

(** From a state with no handle recorded, [serve_html] succeeds as soon as
    the write goes through and the port is valid and free. *)
Lemma handleServeHtml_succeeds (dirname : list string) (a : ServeHtml.args) (s : Sys)
  (fs' : gmap (list string) Node) :
  expressServer (this s) = None →
  fs_writeFile (files (world s))
    (path_join (TEMP_DIR dirname) (string_or (ServeHtml.filename a) "index.html"))
    (ServeHtml.html_content a) = Some fs' →
  valid_port (number_or (ServeHtml.port a) DEFAULT_PORT) = true →
  port_taken (world s) (number_or (ServeHtml.port a) DEFAULT_PORT) = false →
  ∃ r s', handleServeHtml dirname a s = (Ret r, s') ∧ success r = true.
Proof.
  open_sys s. simpl. intros -> Hw Hv Hp.
  unfold handleServeHtml. unfold_prims. simpl. rewrite Hw. simpl. rewrite Hv. simpl.
  match goal with
  | |- context [if port_taken ?w ?p then _ else _] =>
      replace (port_taken w p) with false
  end.
  - eexists. eexists. split; reflexivity.
  - rewrite <- Hp. symmetry. apply port_taken_same; simpl; [reflexivity|].
    rewrite !listeners_snoc. reflexivity.
Qed.

(** What a success of [serve_html] took: the write went through on the
    disk the teardown left, and the port was valid and not held by another
    process. *)
Lemma handleServeHtml_success_needs (dirname : list string) (a : ServeHtml.args)
  (s : Sys) (r : Reply) (s' : Sys) :
  handleServeHtml dirname a s = (Ret r, s') →
  success r = true →
  let p := path_join (TEMP_DIR dirname) (string_or (ServeHtml.filename a) "index.html") in
  let port := number_or (ServeHtml.port a) DEFAULT_PORT in
  p ≠ []
  ∧ is_dir (files (world s')) (removelast p) = true
  ∧ valid_port port = true
  ∧ existsb (Z.eqb port) (foreign_ports (world s')) = false
  ∧ foreign_ports (world s') = foreign_ports (world s).
Proof.
  intros Hrun Hok. open_sys s. simpl.
  unfold handleServeHtml, stopServer in Hrun. unfold_prims. simpl in Hrun.
  repeat (split_match_in Hrun; simpl in Hrun; try discriminate Hrun);
    injection Hrun as <- <-; try discriminate Hok; simpl;
    match goal with H : fs_writeFile _ _ _ = Some _ |- _ =>
      unfold fs_writeFile in H;
      destruct (path_join _ _) as [|seg0 rest] eqn:Hp; [discriminate H|];
      destruct (is_dir _ (removelast (seg0 :: rest))) eqn:Hd; [|discriminate H];
      destruct (negb _) eqn:Hn; [|discriminate H];
      injection H as <-
    end;
    match goal with H : port_taken _ _ = false |- _ =>
      unfold port_taken in H; simpl in H; apply orb_false_elim in H as [Hfp _]
    end;
    (split; [discriminate|]);
    (split;
     [unfold is_dir in *;
      destruct (removelast (seg0 :: rest)) as [|x y] eqn:Hr; [reflexivity|];
      rewrite lookup_insert_ne;
      [exact Hd|
       rewrite <- Hr; intros Heq; symmetry in Heq;
       revert Heq; apply removelast_ne; discriminate]|]);
    auto.
Qed.

Lemma handleServeHtml_success_reply (dirname : list string) (a : ServeHtml.args)
  (s : Sys) (r : Reply) (s' : Sys) :
  handleServeHtml dirname a s = (Ret r, s') → success r = true → r = served_reply a.
Proof.
  intros Hrun Hok. open_sys s.
  unfold handleServeHtml, stopServer in Hrun. unfold_prims. simpl in Hrun.
  repeat (split_match_in Hrun; simpl in Hrun; try discriminate Hrun);
    injection Hrun as <- <-; try discriminate Hok; reflexivity.
Qed.

Lemma is_dir_delete_ne (fs : gmap (list string) Node) (p q : list string) :
  p ≠ q → is_dir (delete p fs) q = is_dir fs q.
Proof.
  intros Hne. unfold is_dir. destruct q; [reflexivity|].
  rewrite lookup_delete_ne by exact Hne. reflexivity.
Qed.

Lemma is_dir_delete_eq (fs : gmap (list string) Node) (p : list string) :
  p ≠ [] → is_dir (delete p fs) p = false.
Proof.
  intros Hp. unfold is_dir. destruct p; [congruence|].
  rewrite lookup_delete_eq. reflexivity.
Qed.

Lemma fs_writeFile_ok (fs : gmap (list string) Node) (p : list string) (c : string) :
  p ≠ [] → is_dir fs (removelast p) = true → is_dir fs p = false →
  fs_writeFile fs p c = Some (<[p := File c]> fs).
Proof.
  intros Hp Hd Hn. unfold fs_writeFile. destruct p; [congruence|].
  rewrite Hd, Hn. reflexivity.
Qed.

(** X6.  [serve_html] can be repeated: after a successful call the same
    call succeeds again with the same reply (the teardown frees the port
    and removes the file before the new setup), and it leaves one
    listener, the new server object, and the file with its content. *)
Theorem serve_html_again (dirname : list string) (a : ServeHtml.args)
  (s s1 : Sys) (r1 : Reply) :
  Consistent s →
  handleServeHtml dirname a s = (Ret r1, s1) → success r1 = true →
  ∃ s2 : Sys,
    handleServeHtml dirname a s1 = (Ret r1, s2)
    ∧ r1 = served_reply a
    ∧ bound (world s2)
      = [listener_of (world s1) (ServeHtml.port a) (TEMP_DIR dirname)]
    ∧ files (world s2)
        !! path_join (TEMP_DIR dirname) (string_or (ServeHtml.filename a) "index.html")
      = Some (File (ServeHtml.html_content a)).
Proof.
  intros Hc Hrun1 Hok1.
  set (p := path_join (TEMP_DIR dirname) (string_or (ServeHtml.filename a) "index.html")).
  set (port := number_or (ServeHtml.port a) DEFAULT_PORT).
  assert (Hc1 : Consistent s1).
  { replace s1 with (snd (handleServeHtml dirname a s)) by (rewrite Hrun1; reflexivity).
    apply handleServeHtml_consistent. exact Hc. }
  destruct (handleServeHtml_success _ _ _ _ _ Hrun1 Hok1) as (Hthis1 & Hfiles1 & _).
  destruct (handleServeHtml_success_needs _ _ _ _ _ Hrun1 Hok1)
    as (Hp & Hdir & Hvalid & Hforeign & _).
  fold p in Hfiles1, Hp, Hdir, Hthis1. fold port in Hvalid, Hforeign, Hthis1.
  pose proof (handleServeHtml_success_reply _ _ _ _ _ Hrun1 Hok1) as Hr1.
  assert (Hsrv1 : expressServer (this s1) = Some (fresh (world s)))
    by (rewrite Hthis1; reflexivity).
  set (s0 := snd (stopServer s1)).
  assert (Hfiles0 : files (world s0) = delete p (files (world s1))).
  { unfold s0. rewrite stopServer_files, Hthis1. simpl.
    assert (Hf : is_file (files (world s1)) p = true).
    { rewrite Hfiles1. unfold is_file. rewrite lookup_insert_eq. reflexivity. }
    rewrite Hf. reflexivity. }
  assert (Hwrite : fs_writeFile (files (world s0)) p (ServeHtml.html_content a)
                   = Some (<[p := File (ServeHtml.html_content a)]> (files (world s0)))).
  { apply fs_writeFile_ok; [exact Hp| |].
    - rewrite Hfiles0, is_dir_delete_ne; [exact Hdir|].
      intros Heq. symmetry in Heq. revert Heq. apply removelast_ne. exact Hp.
    - rewrite Hfiles0. apply is_dir_delete_eq. exact Hp. }
  assert (Hfree : port_taken (world s0) port = false).
  { unfold port_taken.
    destruct (stopServer_other_fields s1) as (_ & Hfp & _).
    fold s0 in Hfp. rewrite Hfp, Hforeign.
    unfold s0. rewrite (stopServer_unbinds s1 Hc1). reflexivity. }
  destruct (handleServeHtml_succeeds dirname a s0 _ (proj1 (stopServer_idle s1))
              Hwrite Hvalid Hfree) as (r2 & s2 & Hrun2 & Hok2).
  unfold s0 in Hrun2.
  rewrite <- (handleServeHtml_stops_first dirname a s1 _ Hsrv1) in Hrun2.
  pose proof (handleServeHtml_success_reply _ _ _ _ _ Hrun2 Hok2) as Hr2.
  exists s2. split; [rewrite Hr1, <- Hr2; exact Hrun2|]. split; [exact Hr1|].
  split.
  - pose proof (serve_html_bound_iff_success dirname a s1 r2 s2 Hc1 Hrun2) as Hb.
    rewrite Hok2 in Hb. exact Hb.
  - destruct (handleServeHtml_success _ _ _ _ _ Hrun2 Hok2) as (_ & Hfiles2 & _).
    rewrite Hfiles2. apply lookup_insert_eq.
Qed.

Lemma serve_html_again_witness :
  let a := Demo.html (Some "a.html") (Some 9000) in
  let s1 := snd (handleServeHtml Demo.dirname a Demo.sys0) in
  ∃ s2, handleServeHtml Demo.dirname a s1 = (Ret (served_reply a), s2).
Proof.
  intros a s1.
  assert (Hc : Consistent Demo.sys0) by (apply consistent_fresh_start; reflexivity).
  assert (Hrun : handleServeHtml Demo.dirname a Demo.sys0 = (Ret (served_reply a), s1)).
  { vm_compute. reflexivity. }
  destruct (serve_html_again Demo.dirname a Demo.sys0 s1 (served_reply a) Hc Hrun eq_refl)
    as (s2 & Hrun2 & _).
  exists s2. exact Hrun2.
Defined.

(* ===================================================================== *)
(** ** Audits and screenshots                                              *)
(* ===================================================================== *)

Lemma handleCaptureScreenshot_state (env : Env) (a : Screenshot.args) (s : Sys) :
  let s' := snd (handleCaptureScreenshot env a s) in
  this s' = this s
  ∧ bound (world s') = bound (world s)
  ∧ files (world s') = files (world s).
Proof.
  open_sys s. unfold handleCaptureScreenshot. unfold_prims. simpl.
  repeat (split_match; simpl);
    repeat split; unfold bound; simpl; rewrite ?listeners_snoc; reflexivity.
Qed.

(** X7.  An audit or a screenshot changes no field of the object, binds
    and unbinds nothing and leaves the disk as it is, whatever its
    outcome. *)
Theorem inspection_keeps_server (env : Env) (dirname : list string) (c : Call)
  (s : Sys) :
  is_inspection c = true →
  let s' := snd (handle env dirname c s) in
  this s' = this s
  ∧ bound (world s') = bound (world s)
  ∧ files (world s') = files (world s).
Proof.
  destruct c as [a|a|a| |a]; try discriminate; intros _.
  - apply handleAuditWithLighthouse_state.
  - apply handleCaptureScreenshot_state.
Qed.

Lemma inspection_keeps_server_witness :
  let s1 := snd (handleServeHtml Demo.dirname (Demo.html None None) Demo.sys0) in
  let c := audit_with_lighthouse Demo.no_args in
  bound (world (snd (handle Demo.env Demo.dirname c s1))) = bound (world s1).
Proof.
  intros s1 c.
  exact (proj1 (proj2 (inspection_keeps_server Demo.env Demo.dirname c s1 eq_refl))).
Defined.

(** X8.  The browser of a screenshot: either Chrome does not start and
    nothing happens; or the connection fails and the browser is killed;
    or the page is driven, then the connection is closed and then the
    browser is killed, whether the capture worked or threw.  In every case
    the process the call launched is not alive when the handler returns. *)
Theorem capture_screenshot_lifecycle (env : Env) (a : Screenshot.args) (s : Sys) :
  let s' := snd (handleCaptureScreenshot env a s) in
  let pid := fresh (world s) in
  let url := Screenshot.url a in
  let width := number_or (Screenshot.width a) 1280 in
  let height := number_or (Screenshot.height a) 800 in
  ∃ seg : list Event,
    trace (world s') = trace (world s) ++ seg
    ∧ ((chrome_starts env pid = false ∧ seg = []
        ∧ browsers (world s') = browsers (world s))
       ∨ (chrome_starts env pid = true
          ∧ (seg = [EvChromeLaunch pid; EvConnect pid; EvChromeKill pid]
             ∨ seg = [EvChromeLaunch pid; EvConnect pid;
                      EvScreenshot url width height;
                      EvDisconnect pid; EvChromeKill pid])
          ∧ browsers (world s')
            = List.filter (fun p => negb (Nat.eqb p pid)) (browsers (world s))
          ∧ ¬ In pid (browsers (world s')))).
Proof.
  open_sys s. unfold handleCaptureScreenshot. unfold_prims. simpl.
  rewrite ?Nat.eqb_refl. simpl.
  repeat (split_match; simpl; rewrite ?Nat.eqb_refl; simpl);
    (eexists; split;
     [first [rewrite <- ?app_assoc; simpl; reflexivity | symmetry; apply app_nil_r]|]);
    try (left; repeat split; reflexivity);
    right; (split; [reflexivity|]); (split; [auto|]); (split; [reflexivity|]);
    intros Hin; apply filter_In in Hin as [_ Hin];
    rewrite Nat.eqb_refl in Hin; discriminate Hin.
Qed.

(** X9.  With a url given, the audit does not look at the object: from two
    objects in the same world the reply and the world afterwards are the
    same.  In particular the audit of a given url goes ahead when no server
    is recorded. *)
Theorem audit_explicit_url_ignores_server (env : Env) (a : Audit.args)
  (t1 t2 : State) (w : World) :
  url_missing (Audit.url a) = false →
  let r1 := handleAuditWithLighthouse env a {| this := t1; world := w |} in
  let r2 := handleAuditWithLighthouse env a {| this := t2; world := w |} in
  fst r1 = fst r2
  ∧ world (snd r1) = world (snd r2)
  ∧ (chrome_starts env (fresh w) = true →
     audited_urls (trace (world (snd r1)))
     = audited_urls (trace w) ++ [default "" (Audit.url a)]).
Proof.
  intros Hurl. destruct t1, t2, w. simpl.
  unfold handleAuditWithLighthouse. unfold_prims. simpl. rewrite Hurl. simpl.
  rewrite ?Nat.eqb_refl. simpl.
  repeat (split_match; simpl; rewrite ?Nat.eqb_refl; simpl);
    (split; [reflexivity|]); (split; [reflexivity|]);
    intros Hs; try discriminate Hs;
    unfold audited_urls; rewrite ?omap_app; simpl; rewrite ?app_nil_r, <- ?app_assoc;
    reflexivity.
Qed.

Lemma audit_explicit_url_ignores_server_witness :
  let a := {| Audit.url := Some "http://example.org/"; Audit.categories := None |} in
  audited_urls (trace (world (snd (handleAuditWithLighthouse Demo.env a Demo.sys0))))
  = ["http://example.org/"].
Proof.
  intros a.
  exact (proj2 (proj2 (audit_explicit_url_ignores_server Demo.env a initial_state
                         initial_state Demo.world0 eq_refl)) eq_refl).
Defined.

(** *** The default url of an audit after a setup *)

Lemma handleDeployZip_success_state (env : Env) (dirname : list string)
  (a : DeployZip.args) (s : Sys) (r : Reply) (s' : Sys) :
  handleDeployZip env dirname a s = (Ret r, s') →
  success r = true →
  expressServer (this s') = Some (fresh (world s))
  ∧ currentPort (this s') = number_or (DeployZip.port a) DEFAULT_PORT
  ∧ currentHtmlFile (this s')
    = match expressServer (this s) with
      | Some _ => None
      | None => currentHtmlFile (this s)
      end.
Proof.
  intros Hrun Hok. open_sys s. simpl.
  unfold handleDeployZip, stopServer in Hrun. unfold_prims. simpl in Hrun.
  repeat (split_match_in Hrun; simpl in Hrun; try discriminate Hrun);
    injection Hrun as <- <-; try discriminate Hok; simpl; auto.
Qed.

(** X10.  After a successful [serve_html] or [deploy_zip], an audit without
    url passes the server check and runs on [http://localhost:<port>],
    with the requested or default port of that setup: the port is recorded
    when the server starts listening. *)
Theorem default_audit_targets_latest_setup (env : Env) (dirname : list string)
  (c : Call) (a : Audit.args) (s : Sys) (r : Reply) :
  is_setup c = true →
  fst (handle env dirname c s) = Ret r → success r = true →
  url_missing (Audit.url a) = true →
  let s1 := snd (handle env dirname c s) in
  chrome_starts env (fresh (world s1)) = true →
  ∃ seg : list Event,
    trace (world (snd (handleAuditWithLighthouse env a s1))) = trace (world s1) ++ seg
    ∧ audited_urls seg
      = ["http://localhost:" +:+ string_of_Z (number_or (port_of c) DEFAULT_PORT)].
Proof.
  intros Hc Hrun Hok Hurl s1 Hchrome.
  assert (Hst : ∃ h, expressServer (this s1) = Some h
                     ∧ currentPort (this s1) = number_or (port_of c) DEFAULT_PORT).
  { unfold s1. destruct c as [d|d|d| |d]; try discriminate Hc; simpl in *.
    - destruct (handleDeployZip env dirname d s) as [o s'] eqn:Hh. simpl in *. subst o.
      destruct (handleDeployZip_success_state _ _ _ _ _ _ Hh Hok) as (H1 & H2 & _).
      eauto.
    - destruct (handleServeHtml dirname d s) as [o s'] eqn:Hh. simpl in *. subst o.
      destruct (handleServeHtml_success _ _ _ _ _ Hh Hok) as (H1 & _).
      rewrite H1. simpl. eauto. }
  destruct Hst as (h & Hsrv & Hport).
  destruct (handleAuditWithLighthouse_default_url env a s1 h Hurl Hsrv Hchrome)
    as (seg & Htr & Hu).
  exists seg. split; [exact Htr|]. rewrite Hu, Hport. reflexivity.
Qed.

Lemma default_audit_targets_latest_setup_witness :
  let c := serve_html (Demo.html (Some "a.html") (Some 9000)) in
  let s1 := snd (handle Demo.env Demo.dirname c Demo.sys0) in
  ∃ seg : list Event,
    trace (world (snd (handleAuditWithLighthouse Demo.env Demo.no_args s1)))
    = trace (world s1) ++ seg
    ∧ audited_urls seg = ["http://localhost:9000"].
Proof.
  intros c s1.
  assert (Hrun : ∃ q, fst (handle Demo.env Demo.dirname c Demo.sys0) = Ret q
                      ∧ success q = true).
  { eexists. split; vm_compute; reflexivity. }
  destruct Hrun as (q & Hrun & Hok).
  exact (default_audit_targets_latest_setup Demo.env Demo.dirname c Demo.no_args
           Demo.sys0 q eq_refl Hrun Hok eq_refl eq_refl).
Defined.

(* ===================================================================== *)
(** ** The shape of a reply                                                *)
(* ===================================================================== *)

(** X11.  Every tool call is answered, and the reply is either a success,
    without the error flag, or a failure with [success: false], an [error]
    string and the error flag; no handler lets an error through. *)
Theorem reply_shape (env : Env) (dirname : list string) (c : Call) (s : Sys) :
  ∃ r : Reply,
    fst (handle env dirname c s) = Ret r
    ∧ isError r = negb (success r)
    ∧ (success r = false →
       field "success" (content r) = Some (JBool false)
       ∧ ∃ msg : string, field "error" (content r) = Some (JStr msg)).
Proof.
  open_sys s. destruct c as [a|a|a| |a]; simpl;
    unfold handleDeployZip, handleServeHtml, handleAuditWithLighthouse,
      handleStopServer, handleCaptureScreenshot, stopServer; unfold_prims; simpl;
    rewrite ?Nat.eqb_refl; simpl;
    repeat (split_match; simpl; rewrite ?Nat.eqb_refl; simpl);
    (eexists; split; [reflexivity|]); (split; [reflexivity|]);
    intros Hs; try discriminate Hs; (split; [reflexivity|]);
    eexists; reflexivity.
Qed.

(* ===================================================================== *)
(** ** More on deployments                                                 *)
(* ===================================================================== *)

(** X12.  The steps of a deployment run in a fixed order and stop at the
    first that fails: the commands run are a prefix of [unzip],
    [npm install], [npm run build]; the archive is written to
    [deploy.zip] in a directory named after the clock, made for the call;
    and a server is started only after all three commands have run and
    [dist] is there, and then it serves [dist]. *)
Theorem deploy_zip_pipeline (env : Env) (dirname : list string) (a : DeployZip.args)
  (s : Sys) :
  ∃ seg : list Event,
    trace (world (snd (handleDeployZip env dirname a s))) = trace (world s) ++ seg
    ∧ made_dirs seg = [deployDir_of dirname (world s)]
    ∧ written_paths seg `prefix_of` [path_join (deployDir_of dirname (world s)) "deploy.zip"]
    ∧ commands seg `prefix_of` deploy_commands dirname (world s)
    ∧ (served_roots seg = []
       ∨ (commands seg = deploy_commands dirname (world s)
          ∧ served_roots seg = [distPath_of dirname (world s)]
          ∧ is_dir (files (world (snd (handleDeployZip env dirname a s))))
              (distPath_of dirname (world s)) = true)).
Proof.
  open_sys s.
  unfold handleDeployZip, stopServer, deploy_commands, unzip_command, distPath_of,
    deployDir_of. unfold_prims. simpl.
  repeat (split_match; simpl);
    (eexists; split; [rewrite <- ?app_assoc; simpl; reflexivity|]);
    simpl;
    (split; [reflexivity|]);
    (split; [first [reflexivity | apply prefix_nil]|]);
    (split;
     [first [reflexivity
            | apply prefix_nil
            | apply prefix_cons; first [apply prefix_nil | apply prefix_cons; apply prefix_nil]]|]);
    first [left; reflexivity | right; repeat split; assumption].
Qed.

Lemma path_join_dist (p : list string) : path_join p "dist" = p ++ ["dist"].
Proof. reflexivity. Qed.

Lemma path_join_build (p : list string) : path_join p "build" = p ++ ["build"].
Proof. reflexivity. Qed.

(** X13.  The success reply of [deploy_zip] carries the port and a message
    that names the [build] directory of the extraction directory, while
    the directory the server serves is its [dist] directory: the message
    does not name the directory that is served. *)
Theorem deploy_zip_message_names_build (env : Env) (dirname : list string)
  (a : DeployZip.args) (s : Sys) (r : Reply) (s' : Sys) :
  handleDeployZip env dirname a s = (Ret r, s') →
  success r = true →
  let appPath := path_join (deployDir_of dirname (world s)) "" in
  let port := number_or (DeployZip.port a) DEFAULT_PORT in
  field "port" (content r) = Some (JInt port)
  ∧ field "message" (content r)
    = Some (JStr ("Application built and serving from "
                  +:+ path_to_string (appPath ++ ["build"])
                  +:+ " on port " +:+ string_of_Z port))
  ∧ expressApp (this s') = Some (appPath ++ ["dist"])
  ∧ appPath ++ ["build"] ≠ appPath ++ ["dist"].
Proof.
  intros Hrun Hok. simpl.
  rewrite <- path_join_build, <- path_join_dist.
  split; [|split; [|split]].
  - open_sys s. unfold handleDeployZip, stopServer in Hrun. unfold_prims.
    simpl in Hrun.
    repeat (split_match_in Hrun; simpl in Hrun; try discriminate Hrun);
      injection Hrun as <- <-; try discriminate Hok; reflexivity.
  - open_sys s. unfold handleDeployZip, stopServer in Hrun. unfold_prims.
    simpl in Hrun.
    repeat (split_match_in Hrun; simpl in Hrun; try discriminate Hrun);
      injection Hrun as <- <-; try discriminate Hok; reflexivity.
  - exact (proj1 (handleDeployZip_success env dirname a s r s' Hrun Hok)).
  - rewrite path_join_build, path_join_dist. intros Heq.
    apply app_inv_head in Heq. discriminate Heq.
Qed.

Lemma deploy_zip_message_names_build_witness :
  let r := handleDeployZip (Demo.env_app true) Demo.dirname Demo.zip Demo.sys0 in
  ∃ q, fst r = Ret q
       ∧ field "message" (content q)
         = Some (JStr "Application built and serving from /app/temp/deploy-1700000000000/build on port 8080")
       ∧ expressApp (this (snd r)) = Some (Demo.deployDir ++ ["dist"]).
Proof.
  intros r.
  assert (Hrun : ∃ q, r = (Ret q, snd r) ∧ success q = true).
  { eexists. split; vm_compute; reflexivity. }
  destruct Hrun as (q & Hrun & Hok).
  destruct (deploy_zip_message_names_build (Demo.env_app true) Demo.dirname Demo.zip
              Demo.sys0 q (snd r) Hrun Hok) as (_ & Hm & Ha & _).
  exists q. split; [rewrite Hrun; reflexivity|].
  split.
  - rewrite Hm. vm_compute. reflexivity.
  - rewrite Ha. vm_compute. reflexivity.
Defined.

(** X14.  A deployment is never cleaned up: after a successful
    [deploy_zip] (made while a server was recorded, or with no temp file
    recorded) no temp file is recorded, and the following [stop_server]
    closes the server and deletes nothing: the disk is exactly as the
    deployment left it. *)
Theorem deployment_is_kept (env : Env) (dirname : list string) (a : DeployZip.args)
  (s : Sys) (r : Reply) (s1 : Sys) :
  handleDeployZip env dirname a s = (Ret r, s1) →
  success r = true →
  expressServer (this s) ≠ None ∨ currentHtmlFile (this s) = None →
  let s2 := snd (handleStopServer s1) in
  currentHtmlFile (this s1) = None
  ∧ trace (world s2) = trace (world s1) ++ [EvClose (fresh (world s))]
  ∧ files (world s2) = files (world s1)
  ∧ Idle (this s2).
Proof.
  intros Hrun Hok Hpre. simpl.
  destruct (handleDeployZip_success_state env dirname a s r s1 Hrun Hok)
    as (Hsrv & _ & Hhtm).
  assert (Hnone : currentHtmlFile (this s1) = None).
  { rewrite Hhtm. destruct (expressServer (this s)); [reflexivity|].
    destruct Hpre as [H|H]; [congruence|exact H]. }
  rewrite handleStopServer_eq. simpl.
  split; [exact Hnone|]. split; [|split].
  - rewrite stopServer_trace. unfold teardown_events. rewrite Hsrv, Hnone. reflexivity.
  - rewrite stopServer_files, Hnone. reflexivity.
  - apply stopServer_idle.
Qed.

Lemma deployment_is_kept_witness :
  let s1 := snd (handleDeployZip (Demo.env_app true) Demo.dirname Demo.zip Demo.sys0) in
  files (world (snd (handleStopServer s1))) = files (world s1).
Proof.
  intros s1.
  assert (Hrun : ∃ q, handleDeployZip (Demo.env_app true) Demo.dirname Demo.zip Demo.sys0
                      = (Ret q, s1) ∧ success q = true).
  { eexists. split; vm_compute; reflexivity. }
  destruct Hrun as (q & Hrun & Hok).
  exact (proj1 (proj2 (proj2 (deployment_is_kept (Demo.env_app true) Demo.dirname
                                Demo.zip Demo.sys0 q s1 Hrun Hok
                                (or_intror eq_refl))))).
Defined.

(* ===================================================================== *)
(** ** The tool table and the dispatch                                     *)
(* ===================================================================== *)

(** X15.  The tools advertised are the tools dispatched: a name is routed
    to a handler exactly when it is the name of a tool in the list, under
    which each call finds its own handler; the names in the list are
    distinct and every required field is a property of its schema.  Any
    other name makes the request throw [Unknown tool: <name>] instead of
    answering with a reply, and touches nothing. *)
Theorem advertised_tools_are_routed :
  (∀ name : string, is_Some (route name) ↔ In name (map tool_name tools))
  ∧ (∀ c : Call, route (name_of c) = Some (handler_of c))
  ∧ NoDup (map tool_name tools)
  ∧ (∀ t : Tool, In t tools → incl (tool_required t) (tool_properties t))
  ∧ (∀ (name : string) (invoke : Handler → M Reply) (s : Sys),
       ¬ In name (map tool_name tools) →
       callTool name invoke s = (Throw (Error ("Unknown tool: " +:+ name)), s)).
Proof.
  assert (Hroute : ∀ name : string,
             is_Some (route name) ↔ In name (map tool_name tools)).
  { intros name. split.
    - intros [h Hh]. unfold route in Hh. simpl.
      repeat match type of Hh with
             | (if String.eqb ?a ?b then _ else _) = _ =>
                 destruct (String.eqb_spec a b) as [->|_]; [tauto|]
             end.
      discriminate Hh.
    - simpl. intros [<-|[<-|[<-|[<-|[<-|[]]]]]]; eexists; reflexivity. }
  split; [exact Hroute|]. split; [|split; [|split]].
  - intros []; reflexivity.
  - apply (bool_decide_unpack _). vm_compute. reflexivity.
  - simpl. intros t [<-|[<-|[<-|[<-|[<-|[]]]]]] x; simpl; tauto.
  - intros name invoke s Hn. unfold callTool.
    destruct (route name) as [h|] eqn:Hr; [|reflexivity].
    exfalso. apply Hn, Hroute. eauto.
Qed.

Lemma advertised_tools_are_routed_witness :
  callTool "restart_server" (fun _ => ret stopped_reply) Demo.sys0
  = (Throw (Error "Unknown tool: restart_server"), Demo.sys0).
Proof.
  refine (proj2 (proj2 (proj2 (proj2 advertised_tools_are_routed)))
            "restart_server" _ Demo.sys0 _).
  simpl. intuition discriminate.
Defined.

(* ===================================================================== *)
(** ** The result of an audit                                              *)
(* ===================================================================== *)

Lemma handleAuditWithLighthouse_result (env : Env) (a : Audit.args) (s : Sys)
  (r : Reply) (s' : Sys) :
  handleAuditWithLighthouse env a s = (Ret r, s') →
  success r = true →
  ∃ (u : string) (report : LH.lhr),
    lighthouse env u (default default_categories (Audit.categories a))
    = LHResult report
    ∧ content r
      = JObj [("success", JBool true);
              ("audit",
               JObj [("url", JStr u);
                     ("fetchTime", JStr (LH.fetchTime report));
                     ("scores", JObj (collect_scores (LH.categories report)));
                     ("metrics", JObj (collect_metrics (LH.audits report)));
                     ("opportunities",
                      JArr (collect_opportunities (LH.audits report)));
                     ("diagnostics",
                      JArr (collect_diagnostics (LH.audits report)))])].
Proof.
  intros Hrun Hok. open_sys s.
  unfold handleAuditWithLighthouse in Hrun. unfold_prims. simpl in Hrun.
  rewrite ?Nat.eqb_refl in Hrun. simpl in Hrun.
  repeat (split_match_in Hrun; simpl in Hrun; rewrite ?Nat.eqb_refl in Hrun;
          simpl in Hrun; try discriminate Hrun);
    injection Hrun as <- <-; try discriminate Hok;
    (eexists; eexists; split; [eassumption|]); reflexivity.
Qed.

Lemma collect_scores_keys (cats : list (string * LH.category)) :
  map fst (collect_scores cats) = map fst cats.
Proof. unfold collect_scores. rewrite map_map. reflexivity. Qed.

Lemma collect_metrics_keys (audits : list (string * LH.audit)) :
  map fst (collect_metrics audits) = List.filter (reported audits) metricsToExtract.
Proof.
  unfold collect_metrics, metricsToExtract, reported. simpl.
  repeat match goal with
         | |- context [assoc ?k audits] => destruct (assoc k audits); simpl
         end; reflexivity.
Qed.

(** X16.  In the result of an audit the scores have exactly the keys of the
    categories the engine reports, in its order, and the metrics have the
    keys, among the five the handler knows and in the handler's order, of
    the metrics the engine reports: nothing else gets in, and a metric the
    engine leaves out is left out. *)
Theorem audit_result_keys (env : Env) (a : Audit.args) (s : Sys) (r : Reply)
  (s' : Sys) :
  handleAuditWithLighthouse env a s = (Ret r, s') →
  success r = true →
  ∃ (u : string) (report : LH.lhr) (audit : JSON)
    (scores metrics : list (string * JSON)),
    lighthouse env u (default default_categories (Audit.categories a))
    = LHResult report
    ∧ field "audit" (content r) = Some audit
    ∧ field "scores" audit = Some (JObj scores)
    ∧ field "metrics" audit = Some (JObj metrics)
    ∧ map fst scores = map fst (LH.categories report)
    ∧ map fst metrics = List.filter (reported (LH.audits report)) metricsToExtract
    ∧ (∀ k, In k (map fst metrics) ↔
            In k metricsToExtract ∧ is_Some (assoc k (LH.audits report)))
    ∧ (length metrics ≤ 5)%nat.
Proof.
  intros Hrun Hok.
  destruct (handleAuditWithLighthouse_result env a s r s' Hrun Hok)
    as (u & report & Hlh & Hcontent).
  exists u, report. eexists. eexists. eexists. rewrite Hcontent. simpl.
  split; [exact Hlh|].
  split; [reflexivity|]. split; [reflexivity|]. split; [reflexivity|].
  split; [apply collect_scores_keys|].
  split; [apply collect_metrics_keys|]. split.
  - intros k. rewrite collect_metrics_keys, filter_In. unfold reported.
    destruct (assoc k (LH.audits report)); split; intros [H1 H2]; split; eauto;
      try discriminate; destruct H2 as [? H2]; discriminate H2.
  - rewrite <- (length_map fst), collect_metrics_keys.
    etransitivity; [apply filter_length_le|]. simpl. lia.
Qed.

Lemma audit_result_keys_witness :
  ∃ (q : Reply) (s' : Sys) (audit : JSON) (metrics : list (string * JSON)),
    handleAuditWithLighthouse Sample.env Sample.args Demo.sys0 = (Ret q, s')
    ∧ field "audit" (content q) = Some audit
    ∧ field "metrics" audit = Some (JObj metrics)
    ∧ map fst metrics = ["first-contentful-paint"; "speed-index"].
Proof.
  pose (run := handleAuditWithLighthouse Sample.env Sample.args Demo.sys0).
  assert (Hrun : ∃ q, run = (Ret q, snd run) ∧ success q = true).
  { eexists. split; vm_compute; reflexivity. }
  destruct Hrun as (q & Hrun & Hok).
  destruct (audit_result_keys Sample.env Sample.args Demo.sys0 q (snd run) Hrun Hok)
    as (u & report & audit & scores & metrics & Hlh & Ha & _ & Hm & _ & Hk & _).
  exists q, (snd run), audit, metrics.
  split; [exact Hrun|]. split; [exact Ha|]. split; [exact Hm|].
  simpl in Hlh. injection Hlh as <-. rewrite Hk. vm_compute. reflexivity.
Defined.

Lemma collect_opportunities_cons (k : string) (x : LH.audit)
  (l : list (string * LH.audit)) :
  collect_opportunities ((k, x) :: l)
  = if is_opportunity x
    then JObj ([("title", JStr (LH.a_title x));
                ("description", JStr (LH.a_description x));
                ("score", opt_num (LH.a_score x))]
               ++ optional_field "displayValue" (LH.a_displayValue x))
         :: collect_opportunities l
    else collect_opportunities l.
Proof.
  unfold collect_opportunities. simpl. destruct (is_opportunity x); reflexivity.
Qed.

Lemma collect_diagnostics_cons (k : string) (x : LH.audit)
  (l : list (string * LH.audit)) :
  collect_diagnostics ((k, x) :: l)
  = if negb (is_opportunity x) && is_diagnostic x
    then JObj [("title", JStr (LH.a_title x));
               ("description", JStr (LH.a_description x));
               ("score", opt_num (LH.a_score x))]
         :: collect_diagnostics l
    else collect_diagnostics l.
Proof.
  unfold collect_diagnostics. simpl.
  destruct (is_opportunity x), (is_diagnostic x); reflexivity.
Qed.

Lemma collect_opportunities_titles (l : list (string * LH.audit)) :
  titles (collect_opportunities l)
  = map LH.a_title (List.filter is_opportunity (map snd l))
  ∧ length (collect_opportunities l)
    = length (List.filter is_opportunity (map snd l)).
Proof.
  induction l as [|[k x] l [IH1 IH2]]; [split; reflexivity|].
  rewrite collect_opportunities_cons. simpl.
  destruct (is_opportunity x); [|split; assumption].
  split; simpl; [unfold titles in *; simpl|]; congruence.
Qed.

Lemma collect_diagnostics_titles (l : list (string * LH.audit)) :
  let p := fun x => negb (is_opportunity x) && is_diagnostic x in
  titles (collect_diagnostics l) = map LH.a_title (List.filter p (map snd l))
  ∧ length (collect_diagnostics l) = length (List.filter p (map snd l))
  ∧ Forall (fun d => field "displayValue" d = None) (collect_diagnostics l).
Proof.
  induction l as [|[k x] l (IH1 & IH2 & IH3)];
    [split; [|split]; [reflexivity|reflexivity|constructor]|].
  rewrite collect_diagnostics_cons. simpl.
  destruct (negb (is_opportunity x) && is_diagnostic x);
    [|split; [|split]; assumption].
  split; [|split]; simpl.
  - unfold titles in *. simpl. congruence.
  - congruence.
  - constructor; [reflexivity|assumption].
Qed.

Lemma findings_length (p q : LH.audit → bool) (l : list LH.audit) :
  (length (List.filter p l) + length (List.filter (fun x => negb (p x) && q x) l)
   ≤ length l)%nat.
Proof.
  induction l as [|x l IH]; simpl; [lia|].
  destruct (p x); simpl; [lia|]. destruct (q x); simpl; lia.
Qed.

(** X17.  Each audit of the report is filed at most once: the opportunities
    are the audits whose details are of type [opportunity], the diagnostics
    are the informative audits with a score below 1 among the others, both
    in the order of the report, and an audit that is both is an opportunity
    only.  A diagnostic carries no display value. *)
Theorem audit_findings (env : Env) (a : Audit.args) (s : Sys) (r : Reply)
  (s' : Sys) :
  handleAuditWithLighthouse env a s = (Ret r, s') →
  success r = true →
  ∃ (u : string) (report : LH.lhr) (audit : JSON) (opps diags : list JSON),
    lighthouse env u (default default_categories (Audit.categories a))
    = LHResult report
    ∧ field "audit" (content r) = Some audit
    ∧ field "opportunities" audit = Some (JArr opps)
    ∧ field "diagnostics" audit = Some (JArr diags)
    ∧ titles opps
      = map LH.a_title (List.filter is_opportunity (audit_list report))
    ∧ length opps = length (List.filter is_opportunity (audit_list report))
    ∧ titles diags
      = map LH.a_title
          (List.filter (fun x => negb (is_opportunity x) && is_diagnostic x)
             (audit_list report))
    ∧ length diags
      = length (List.filter (fun x => negb (is_opportunity x) && is_diagnostic x)
                  (audit_list report))
    ∧ (length opps + length diags ≤ length (LH.audits report))%nat
    ∧ Forall (fun d => field "displayValue" d = None) diags.
Proof.
  intros Hrun Hok.
  destruct (handleAuditWithLighthouse_result env a s r s' Hrun Hok)
    as (u & report & Hlh & Hcontent).
  exists u, report. eexists. eexists. eexists. rewrite Hcontent. simpl.
  split; [exact Hlh|].
  split; [reflexivity|]. split; [reflexivity|]. split; [reflexivity|].
  unfold audit_list.
  destruct (collect_opportunities_titles (LH.audits report)) as [Ho1 Ho2].
  destruct (collect_diagnostics_titles (LH.audits report)) as (Hd1 & Hd2 & Hd3).
  repeat split; try assumption.
  rewrite Ho2, Hd2, <- (length_map snd (LH.audits report)).
  apply findings_length.
Qed.

Lemma audit_findings_witness :
  ∃ (q : Reply) (s' : Sys) (audit : JSON) (opps diags : list JSON),
    handleAuditWithLighthouse Sample.env Sample.args Demo.sys0 = (Ret q, s')
    ∧ field "audit" (content q) = Some audit
    ∧ field "opportunities" audit = Some (JArr opps)
    ∧ field "diagnostics" audit = Some (JArr diags)
    ∧ titles opps = ["Reduce unused CSS"; "Eliminate render-blocking resources"]
    ∧ titles diags = ["Avoid an excessive DOM size"].
Proof.
  pose (run := handleAuditWithLighthouse Sample.env Sample.args Demo.sys0).
  assert (Hrun : ∃ q, run = (Ret q, snd run) ∧ success q = true).
  { eexists. split; vm_compute; reflexivity. }
  destruct Hrun as (q & Hrun & Hok).
  destruct (audit_findings Sample.env Sample.args Demo.sys0 q (snd run) Hrun Hok)
    as (u & report & audit & opps & diags & Hlh & Ha & Ho & Hd & Hto & _ & Htd & _).
  exists q, (snd run), audit, opps, diags.
  split; [exact Hrun|]. split; [exact Ha|]. split; [exact Ho|]. split; [exact Hd|].
  simpl in Hlh. injection Hlh as <-. rewrite Hto, Htd.
  split; vm_compute; reflexivity.
Defined.

(* ===================================================================== *)
(** ** The temp directory                                                  *)
(* ===================================================================== *)

Lemma mkdir_from_keeps (todo : list string) :
  ∀ (fs : gmap (list string) Node) (done : list string)
    (fs' : gmap (list string) Node),
    mkdir_from fs done todo = Some fs' →
    (∀ q n, fs !! q = Some n → fs' !! q = Some n)
    ∧ (∀ q, (length (done ++ todo) < length q)%nat → fs' !! q = fs !! q)
    ∧ (todo ≠ [] → fs' !! (done ++ todo) = Some Dir).
Proof.
  induction todo as [|seg rest IH]; intros fs done fs' H; simpl in H.
  - injection H as <-. repeat split; auto. congruence.
  - assert (Hstep : mkdir_from (<[done ++ [seg] := Dir]> fs) (done ++ [seg]) rest
                    = Some fs'
                    ∧ ∀ c, fs !! (done ++ [seg]) ≠ Some (File c)).
    { destruct (fs !! (done ++ [seg])) as [[c|]|] eqn:Hd;
        [discriminate H| |]; split; auto; intros; discriminate. }
    destruct Hstep as [Hrec Hnf].
    destruct (IH _ _ _ Hrec) as (Hkeep & Hother & Htarget).
    replace (done ++ seg :: rest) with ((done ++ [seg]) ++ rest)
      by (rewrite <- app_assoc; reflexivity).
    split; [|split].
    + intros q n Hq. apply Hkeep.
      destruct (decide (q = done ++ [seg])) as [->|Hne].
      * rewrite lookup_insert_eq. destruct n as [c|]; [|reflexivity].
        exfalso. exact (Hnf c Hq).
      * rewrite lookup_insert_ne by congruence. exact Hq.
    + intros q Hlen. rewrite (Hother q Hlen).
      apply lookup_insert_ne. intros Heq. rewrite <- Heq in Hlen.
      rewrite !length_app in Hlen. simpl in Hlen. lia.
    + intros _. destruct rest as [|seg' rest'].
      * simpl in Hrec. injection Hrec as <-.
        rewrite app_nil_r. apply lookup_insert_eq.
      * apply Htarget. discriminate.
Qed.

Lemma ensureTempDir_eq (dirname : list string) (s : Sys) :
  ensureTempDir dirname s
  = (Ret tt,
     {| this := this s;
        world :=
          {| files := default (files (world s))
                        (fs_mkdir_recursive (files (world s)) (TEMP_DIR dirname));
             foreign_ports := foreign_ports (world s);
             browsers := browsers (world s);
             fresh := fresh (world s);
             now := now (world s);
             trace := trace (world s) ++ [EvMkdir (TEMP_DIR dirname)] |} |}).
Proof.
  open_sys s. unfold ensureTempDir. unfold_prims. simpl.
  destruct (fs_mkdir_recursive fs (TEMP_DIR dirname)); reflexivity.
Qed.

Lemma TEMP_DIR_ne (dirname : list string) : TEMP_DIR dirname ≠ [].
Proof. rewrite TEMP_DIR_eq. destruct (removelast dirname); discriminate. Qed.

(** X18.  Creating the temp directory never fails the construction and
    never damages what is there: the object and the listeners are as
    before, every file and directory of the disk is kept, and afterwards
    the temp directory exists, unless the creation was refused, and then
    the disk is as it was. *)
Theorem ensureTempDir_safe (dirname : list string) (s : Sys) :
  let s' := snd (ensureTempDir dirname s) in
  fst (ensureTempDir dirname s) = Ret tt
  ∧ this s' = this s
  ∧ bound (world s') = bound (world s)
  ∧ (∀ q n, files (world s) !! q = Some n → files (world s') !! q = Some n)
  ∧ (∀ q, (length (TEMP_DIR dirname) < length q)%nat →
          files (world s') !! q = files (world s) !! q)
  ∧ (is_dir (files (world s')) (TEMP_DIR dirname) = true
     ∨ fs_mkdir_recursive (files (world s)) (TEMP_DIR dirname) = None
       ∧ files (world s') = files (world s)).
Proof.
  rewrite ensureTempDir_eq. simpl.
  split; [reflexivity|]. split; [reflexivity|].
  split; [unfold bound; simpl; apply listeners_snoc|].
  destruct (fs_mkdir_recursive (files (world s)) (TEMP_DIR dirname)) as [fs'|] eqn:Hm;
    simpl.
  - destruct (mkdir_from_keeps _ _ _ _ Hm) as (Hkeep & Hother & Htarget).
    simpl in Hother, Htarget.
    split; [exact Hkeep|]. split; [exact Hother|]. left.
    unfold is_dir. rewrite (Htarget (TEMP_DIR_ne dirname)).
    destruct (TEMP_DIR dirname); reflexivity.
  - split; [auto|]. split; [auto|]. right. auto.
Qed.




(* ===================================================================== *)
(** ** The ways out of an audit                                            *)
(* ===================================================================== *)

(** X20.  An audit is always answered, and runs the engine at most once.
    Either nothing was started (no url and no server, or no Chrome) and
    the reply is a failure; or Chrome was launched, the engine ran on the
    url with the categories given or the five defaults, and Chrome was
    killed, and then the reply is a success exactly when the engine gave a
    report, and the failure of an engine without result says so; or the
    engine threw, its error is the error of the reply, and Chrome was not
    killed.  So the browser of a successful audit is never left alive. *)
Theorem audit_outcomes (env : Env) (a : Audit.args) (s : Sys) :
  let run := handleAuditWithLighthouse env a s in
  let pid := fresh (world s) in
  let cats := default default_categories (Audit.categories a) in
  ∃ r : Reply,
    fst run = Ret r
    ∧ ((world (snd run) = world s ∧ success r = false
        ∧ (expressServer (this s) = None ∧ url_missing (Audit.url a) = true
           ∨ chrome_starts env pid = false))
       ∨ (∃ u : string,
            trace (world (snd run))
            = trace (world s)
              ++ [EvChromeLaunch pid; EvLighthouse u cats; EvChromeKill pid]
            ∧ ¬ In pid (browsers (world (snd run)))
            ∧ ((∃ report, lighthouse env u cats = LHResult report
                          ∧ success r = true)
               ∨ (lighthouse env u cats = LHNoResult
                  ∧ r = failure_reply
                          (Error "Lighthouse audit failed to produce results"))))
       ∨ (∃ (u : string) (e : Err),
            lighthouse env u cats = LHThrows e
            ∧ trace (world (snd run))
              = trace (world s) ++ [EvChromeLaunch pid; EvLighthouse u cats]
            ∧ In pid (browsers (world (snd run)))
            ∧ r = failure_reply e)).
Proof.
  open_sys s. unfold handleAuditWithLighthouse. unfold_prims. simpl.
  rewrite ?Nat.eqb_refl. simpl.
  assert (Hgone : ∀ l : list nat,
             ¬ In fr (List.filter (fun p => negb (Nat.eqb p fr)) l)).
  { intros l Hin. apply filter_In in Hin as [_ Hin].
    rewrite Nat.eqb_refl in Hin. discriminate Hin. }
  repeat (split_match; simpl; rewrite ?Nat.eqb_refl; simpl);
    (eexists; split; [reflexivity|]);
    first
      [ left; split; [reflexivity|]; split; [reflexivity|]; auto; fail
      | right; left; eexists;
        split; [rewrite <- ?app_assoc; simpl; reflexivity|];
        split; [apply Hgone|]; eauto; fail
      | right; right; eexists; eexists;
        split; [eassumption|];
        split; [rewrite <- ?app_assoc; simpl; reflexivity|];
        split; [left; reflexivity|reflexivity] ].
Qed.

